(** * MplusPrep: column-name sanitisation, script templates and the
      conversion pipeline of [mplusprep.py]

    The development follows the Python module function by function.
    Identifiers are Python [str] values; they are represented here by their
    UTF-8 bytes ([string]).  Every test the program performs on an
    identifier (the two regular expressions, [len] once the expression has
    matched, equality, slicing of an already stripped name) gives the same
    answer on the bytes as on the code points, because every byte of a
    non-ASCII character is at least 128 and so lies outside
    [[A-Za-z0-9_]]. *)

From Stdlib Require Import List String Ascii Arith Lia Bool DecimalString.
From Stdlib Require Import ZArith.
Import ListNotations.
Open Scope string_scope.

(** ** Characters and strings *)

Module Chars.

Definition between (lo hi c : ascii) : bool :=
  Nat.leb (nat_of_ascii lo) (nat_of_ascii c)
  && Nat.leb (nat_of_ascii c) (nat_of_ascii hi).

(** [[A-Za-z]] *)
Definition is_letter (c : ascii) : bool :=
  between "A" "Z" c || between "a" "z" c.

(** [[0-9]]; on a stripped name this is what [str.isdigit] tests. *)
Definition is_digit (c : ascii) : bool := between "0" "9" c.

(** [[A-Za-z0-9_]] *)
Definition is_word (c : ascii) : bool :=
  is_letter c || is_digit c || Ascii.eqb c "_".

Definition nl : string := String "010" EmptyString.

(** [all(p(ch) for ch in s)] *)
Fixpoint all_chars (p : ascii -> bool) (s : string) : bool :=
  match s with
  | EmptyString => true
  | String c r => p c && all_chars p r
  end.

(** The slice [s[:k]]. *)
Fixpoint take (k : nat) (s : string) : string :=
  match k, s with
  | S k', String c r => String c (take k' r)
  | _, _ => EmptyString
  end.

(** [str(n)] for a non-negative integer. *)
Definition str_nat (n : nat) : string :=
  NilEmpty.string_of_uint (Nat.to_uint n).

(** [s.lower()] on the bytes: [A-Z] are mapped, every other byte is left
    alone.  On a string of ASCII characters this is [str.lower] itself.  On
    other strings the text can differ from Python's (a non-ASCII capital is
    not lowercased), but the comparisons the program makes with the result
    are decided as Python decides them: they are with the ASCII strings
    [y], [.csv], [.xlsx], [.xls] and [.sav], and no character outside [A-Z]
    lowercases to one of their letters. *)
Definition lower_char (c : ascii) : ascii :=
  if between "A" "Z" c then ascii_of_nat (nat_of_ascii c + 32) else c.

Fixpoint lower (s : string) : string :=
  match s with
  | EmptyString => EmptyString
  | String c r => String (lower_char c) (lower r)
  end.

(** [sep.join(parts)] *)
Fixpoint join (sep : string) (parts : list string) : string :=
  match parts with
  | [] => EmptyString
  | [p] => p
  | p :: rest => p ++ sep ++ join sep rest
  end.

(** [t] occurs as a contiguous piece of [s]. *)
Definition occurs (t s : string) : Prop :=
  exists before after, s = before ++ t ++ after.

End Chars.
Import Chars.

(** ** Name validation: [illegal_names] *)

(** [re.match(r"^[A-Za-z][A-Za-z0-9_]*$", c)].  Without [re.MULTILINE],
    [$] matches at the end of the string and also just before a newline
    that is the last character, so one trailing newline is tolerated. *)
Fixpoint ident_tail (s : string) : bool :=
  match s with
  | EmptyString => true
  | String c r =>
      if is_word c then ident_tail r
      else Ascii.eqb c "010" && String.eqb r EmptyString
  end.

Definition re_match_ident (c : string) : bool :=
  match c with
  | EmptyString => false
  | String h r => is_letter h && ident_tail r
  end.

Definition is_illegal (c : string) : bool :=
  negb (re_match_ident c) || Nat.ltb 8 (String.length c).

Definition illegal_names (cols : list string) : list string :=
  filter is_illegal cols.

(** The Symbol Grammar as the specification words it: starts with a letter,
    only letters, digits and underscore after it, at most 8 characters. *)
Definition symbol_grammar (s : string) : bool :=
  match s with
  | EmptyString => false
  | String h r => is_letter h && all_chars is_word r && Nat.leb (String.length s) 8
  end.

(** ** Name sanitisation: [sanitize_names] *)

(** A Python [dict] with string keys, in insertion order; assigning to a key
    that is present keeps its position. *)
Definition dict := list (string * string).

Fixpoint dict_set (k v : string) (d : dict) : dict :=
  match d with
  | [] => [(k, v)]
  | (k', v') :: r =>
      if String.eqb k' k then (k, v) :: r else (k', v') :: dict_set k v r
  end.

Fixpoint dict_get (d : dict) (k : string) : option string :=
  match d with
  | [] => None
  | (k', v) :: r => if String.eqb k' k then Some v else dict_get r k
  end.

Definition values (d : dict) : list string := map snd d.
Definition keys (d : dict) : list string := map fst d.

(** [n in used] *)
Definition mem (n : string) (used : list string) : bool :=
  existsb (String.eqb n) used.

(** [re.sub(r"[^A-Za-z0-9_]", "", c)] *)
Fixpoint re_sub_nonword (s : string) : string :=
  match s with
  | EmptyString => EmptyString
  | String c r =>
      if is_word c then String c (re_sub_nonword r) else re_sub_nonword r
  end.

(** [not n or n[0].isdigit()] *)
Definition needs_placeholder (n : string) : bool :=
  match n with
  | EmptyString => true
  | String h _ => is_digit h
  end.

(** What every generated name has, whatever the input: it is not empty, does
    not start with a digit, has only letters, digits and underscore, and at
    most 8 characters. *)
Definition well_formed (s : string) : bool :=
  negb (needs_placeholder s) && all_chars is_word s
  && Nat.leb (String.length s) 8.

(** Lines 30-33: the candidate name of column [c] at counter value
    [counter]. *)
Definition candidate (counter : nat) (c : string) : string :=
  let n := re_sub_nonword c in
  let n := if needs_placeholder n then "v" ++ str_nat counter else n in
  take 8 n.

(** Line 35: the body of the retry loop. *)
Definition perturb (counter : nat) (n : string) : string :=
  take 7 n ++ str_nat (counter mod 10).

(** Lines 34-35, [while n in used: n = n[:7] + str(counter % 10)], run for
    at most [fuel] executions of the body; [None] when the guard still
    holds after them. *)
Fixpoint retry (fuel : nat) (used : list string) (counter : nat) (n : string)
  : option string :=
  if mem n used then
    match fuel with
    | 0 => None
    | S f => retry f used counter (perturb counter n)
    end
  else Some n.

(** The name after [k] executions of the body. *)
Fixpoint after (counter k : nat) (n : string) : string :=
  match k with
  | 0 => n
  | S k' => after counter k' (perturb counter n)
  end.

(** The body stabilises after at most eight executions, so eight are enough
    to decide the loop (lemma [retry_complete] below). *)
Definition retry_fuel : nat := 8.

(** Lines 29-38.  [None] stands for a run whose retry loop never exits. *)
Fixpoint sanitize_loop (cols : list string) (mp : dict) (used : list string)
  (counter : nat) : option dict :=
  match cols with
  | [] => Some mp
  | c :: rest =>
      match retry retry_fuel used counter (candidate counter c) with
      | None => None
      | Some n => sanitize_loop rest (dict_set c n mp) (n :: used) (S counter)
      end
  end.

Definition sanitize_names (cols : list string) : option dict :=
  sanitize_loop cols [] [] 1.

(** The loops as relations: what a terminating run of the Python code
    computes, with no bound on the number of iterations. *)
Inductive while_exit (used : list string) (counter : nat)
  : string -> string -> Prop :=
| WhileDone n :
    mem n used = false -> while_exit used counter n n
| WhileStep n n' :
    mem n used = true ->
    while_exit used counter (perturb counter n) n' ->
    while_exit used counter n n'.

Inductive sanitize_exec
  : list string -> dict -> list string -> nat -> dict -> Prop :=
| ExecNil mp used counter : sanitize_exec [] mp used counter mp
| ExecCons c rest mp used counter n mp' :
    while_exit used counter (candidate counter c) n ->
    sanitize_exec rest (dict_set c n mp) (n :: used) (S counter) mp' ->
    sanitize_exec (c :: rest) mp used counter mp'.

(** ** Effects: outcomes, the world and a small monad *)

Inductive exn : Type :=
| ValueError (msg : string)
| UnicodeDecodeError (msg : string)
| EOFError
| OSError (msg : string)
| ParserError (msg : string).

(** How a call ends: it returns, it raises, or it never comes back. *)
Inductive outcome (A : Type) : Type :=
| Returned (a : A)
| Raised (e : exn)
| Diverged.
Arguments Returned {A} a.
Arguments Raised {A} e.
Arguments Diverged {A}.

Section Pipeline.

(** A scalar value of the data frame; the pipeline never inspects one. *)
Context {cell : Type}.

Record Table : Type := mkTable {
  columns : list string;
  rows : list (list cell)
}.

(** What is handed to a file.  The two CSV renderings are done inside
    pandas, so a data file and a mapping file are recorded by the arguments
    of the [to_csv] call that writes them. *)
Inductive content : Type :=
| DatOf (df : Table)
    (* df.to_csv(path, sep=" ", index=False, header=False,
                 float_format="%.6f") *)
| Script (text : string)
| MapCsv (header : list string) (rows : list (string * string)).
    (* pd.DataFrame(rows, columns=header).to_csv(path, index=False,
                                                 encoding="utf-8-sig") *)

Record world : Type := mkWorld {
  stdin : list string;            (* the lines the user will type *)
  stdout : list string;           (* what was printed, oldest first *)
  disk : list (string * content)  (* the files written, oldest first *)
}.

Definition M (A : Type) : Type := world -> outcome A * world.

Definition ret {A} (a : A) : M A := fun w => (Returned a, w).
Definition raise {A} (e : exn) : M A := fun w => (Raised e, w).
Definition diverge {A} : M A := fun w => (Diverged, w).
Definition bind {A B} (m : M A) (k : A -> M B) : M B :=
  fun w =>
    match m w with
    | (Returned a, w') => k a w'
    | (Raised e, w') => (Raised e, w')
    | (Diverged, w') => (Diverged, w')
    end.
Definition lift {A} (r : exn + A) : M A :=
  match r with inl e => raise e | inr a => ret a end.

Notation "x <- m ;; k" := (bind m (fun x => k))
  (at level 61, m at next level, right associativity).
Notation "m ;; k" := (bind m (fun _ => k))
  (at level 61, right associativity).

Definition print (s : string) : M unit :=
  fun w => (Returned tt, mkWorld (stdin w) (stdout w ++ [s])%list (disk w)).

(** [input(prompt)]: the prompt is shown, then a line is read. *)
Definition input (prompt : string) : M string :=
  fun w =>
    let out := (stdout w ++ [prompt])%list in
    match stdin w with
    | [] => (Raised EOFError, mkWorld [] out (disk w))
    | a :: rest => (Returned a, mkWorld rest out (disk w))
    end.

Fixpoint for_each {A} (l : list A) (body : A -> M unit) : M unit :=
  match l with
  | [] => ret tt
  | x :: r => body x ;; for_each r body
  end.

(** The environment of a run: the path functions of [os.path], the readers
    of pandas and pyreadstat, and which paths can be written. *)
Record environment : Type := mkEnv {
  splitext : string -> string * string;
  abspath : string -> string;
  open_bytes : string -> string + list ascii;
  codec : string -> list ascii -> option (list N);
  parse_csv : list N -> string + Table;
  pd_read_excel : string -> exn + Table;
  read_sav : string -> exn + Table;
  can_write : string -> bool
}.

Variable E : environment.

Definition write_file (path : string) (c : content) : M unit :=
  fun w =>
    if can_write E path
    then (Returned tt, mkWorld (stdin w) (stdout w) (disk w ++ [(path, c)])%list)
    else (Raised (OSError path), w).

(** ** Ingestion: [read_csv_with_fallback], [read_data] *)

(** ISO-8859-1: byte [b] is the code point [b]. *)
Definition decode_latin1 (bs : list ascii) : list N := map N_of_ascii bs.

Definition decode (encoding : string) (bs : list ascii) : option (list N) :=
  if String.eqb encoding "latin1" then Some (decode_latin1 bs)
  else codec E encoding bs.

(** [pd.read_csv(p, encoding=e)]: the file is opened, its bytes are decoded
    with [e], the text is parsed.  [UnicodeDecodeError] is what a decoder
    raises on bytes it rejects. *)
Definition pd_read_csv (p encoding : string) : exn + Table :=
  match open_bytes E p with
  | inl msg => inl (OSError msg)
  | inr bs =>
      match decode encoding bs with
      | None => inl (UnicodeDecodeError encoding)
      | Some text =>
          match parse_csv E text with
          | inl msg => inl (ParserError msg)
          | inr df => inr df
          end
      end
  end.

Definition encodings : list string :=
  ["utf-8"; "gbk"; "gb2312"; "cp936"; "latin1"].

(** Lines 5-9; [None] when the [for] loop runs off its end. *)
Fixpoint try_encodings (p : string) (es : list string)
  : M (option (Table * string)) :=
  match es with
  | [] => ret None
  | e :: rest =>
      match pd_read_csv p e with
      | inr df => ret (Some (df, e))
      | inl (UnicodeDecodeError _) => try_encodings p rest
      | inl other => raise other
      end
  end.

Definition fallback_prompt : string :=
  nl ++ "CSV 文件编码无法自动识别" ++ nl
  ++ "是否由 mplusprep 强制修复（latin1）？ [y/N]: ".

Definition read_csv_with_fallback (p : string) : M (Table * string) :=
  r <- try_encodings p encodings ;;
  match r with
  | Some found => ret found
  | None =>
      ans <- input fallback_prompt ;;
      if String.eqb (lower ans) "y"
      then df <- lift (pd_read_csv p "latin1") ;; ret (df, "latin1")
      else raise (UnicodeDecodeError "用户拒绝自动修复")
  end.

Definition read_data (p : string) : M Table :=
  let ext := lower (snd (splitext E p)) in
  if String.eqb ext ".csv" then
    r <- read_csv_with_fallback p ;; ret (fst r)
  else if String.eqb ext ".xlsx" || String.eqb ext ".xls" then
    lift (pd_read_excel E p)
  else if String.eqb ext ".sav" then
    lift (read_sav E p)
  else raise (ValueError ("不支持的文件格式: " ++ ext)).

(** ** Emission: [write_dat], [fmt_names] and the two templates *)

Definition write_dat (df : Table) (path : string) : M unit :=
  write_file path (DatOf df).

(** [l[i:j]] for [0 <= i <= j]. *)
Definition slice {A} (l : list A) (i j : nat) : list A :=
  firstn (j - i) (skipn i l).

(** [range(0, stop, step)] *)
Definition range_step (stop step : nat) : list nat :=
  map (fun k => k * step) (seq 0 ((stop + step - 1) / step)).

Definition fmt_names (names : list string) : string :=
  let per_line := 5 in
  let indent := "    " in
  let lines :=
    map (fun i => join " " (slice names i (i + per_line)))
        (range_step (List.length names) per_line) in
  join nl (map (fun l => indent ++ l) lines).

Definition unpack_error (expected got : nat) : exn :=
  ValueError ("not enough values to unpack (expected " ++ str_nat expected
              ++ ", got " ++ str_nat got ++ ")").

(** Lines 51-58: the strings passed to [f.write], one per call, in order. *)
Definition med_writes (X M Y : string) (names : list string)
  (dat_abs : string) : list string :=
  [
    "TITLE: Simple mediation model (X M Y);" ++ nl ++ nl;
    "DATA:" ++ nl; "  FILE = " ++ dat_abs ++ ";" ++ nl ++ nl;
    "VARIABLE:" ++ nl ++ "  NAMES =" ++ nl; fmt_names names; ";" ++ nl ++ nl;
    "  USEVARIABLES = " ++ X ++ " " ++ M ++ " " ++ Y ++ ";" ++ nl ++ nl;
    "ANALYSIS:" ++ nl ++ "  ESTIMATOR = MLR;" ++ nl
      ++ "  BOOTSTRAP = 5000;" ++ nl ++ nl;
    "MODEL:" ++ nl; "  " ++ M ++ " ON " ++ X ++ " (a);" ++ nl;
    "  " ++ Y ++ " ON " ++ M ++ " (b);" ++ nl;
    "  " ++ Y ++ " ON " ++ X ++ " (c);" ++ nl ++ nl;
    "MODEL CONSTRAINT:" ++ nl ++ "  NEW(DIRECT INDIRECT TOTAL);" ++ nl
      ++ "  INDIRECT = a*b;" ++ nl ++ "  DIRECT = c;" ++ nl
      ++ "  TOTAL = DIRECT + INDIRECT;" ++ nl ++ nl;
    "OUTPUT:" ++ nl ++ "  STANDARDIZED CINTERVAL(BOOTSTRAP);" ++ nl ].

Definition med_script (X M Y : string) (names : list string)
  (dat_abs : string) : string :=
  String.concat "" (med_writes X M Y names dat_abs).

Definition write_inp_med (df : Table) (out dat_abs : string) : M unit :=
  match firstn 3 (columns df) with
  | [X; M; Y] => write_file out (Script (med_script X M Y (columns df) dat_abs))
  | few => raise (unpack_error 3 (List.length few))
  end.

(** Lines 63-71: the strings passed to [f.write], one per call, in order. *)
Definition mod_writes (X M Y W : string) (names : list string)
  (dat_abs : string) : list string :=
  [
    "TITLE: Moderated mediation model;" ++ nl ++ nl;
    "DATA:" ++ nl; "  FILE = " ++ dat_abs ++ ";" ++ nl ++ nl;
    "VARIABLE:" ++ nl ++ "  NAMES =" ++ nl; fmt_names names; ";" ++ nl ++ nl;
    "  USEVARIABLES = " ++ X ++ " " ++ M ++ " " ++ Y ++ " " ++ W ++ " XW;"
      ++ nl ++ nl;
    "DEFINE:" ++ nl; "  XW = " ++ X ++ "*" ++ W ++ ";" ++ nl ++ nl;
    "ANALYSIS:" ++ nl ++ "  ESTIMATOR = MLR;" ++ nl
      ++ "  BOOTSTRAP = 5000;" ++ nl ++ nl;
    "MODEL:" ++ nl;
    "  " ++ M ++ " ON " ++ X ++ " (a1) " ++ W ++ " (a2) XW (a3);" ++ nl;
    "  " ++ Y ++ " ON " ++ M ++ " (b) " ++ X ++ ";" ++ nl ++ nl;
    "MODEL CONSTRAINT:" ++ nl ++ "  NEW(INDIRECT);" ++ nl
      ++ "  INDIRECT = (a1 + a3*0)*b;" ++ nl ++ nl;
    "OUTPUT:" ++ nl ++ "  STANDARDIZED CINTERVAL(BOOTSTRAP);" ++ nl ].

Definition mod_script (X M Y W : string) (names : list string)
  (dat_abs : string) : string :=
  String.concat "" (mod_writes X M Y W names dat_abs).

Definition write_inp_mod (df : Table) (out dat_abs : string) : M unit :=
  match firstn 4 (columns df) with
  | [X; M; Y; W] =>
      write_file out (Script (mod_script X M Y W (columns df) dat_abs))
  | few => raise (unpack_error 4 (List.length few))
  end.

(** ** Orchestration: [convert] *)

(** [df.rename(columns=mp)] *)
Definition rename (df : Table) (mp : dict) : Table :=
  mkTable
    (map (fun c => match dict_get mp c with Some v => v | None => c end)
         (columns df))
    (rows df).

(** Lines 89-100, after the naming step has fixed [df] and [mp]. *)
Definition convert_emit (df : Table) (mp : option dict)
  (prefix mode : string) : M unit :=
  let dat := prefix ++ ".dat" in
  let inp_file := prefix ++ ".inp" in
  write_dat df dat ;;
  let dat_abs := abspath E dat in
  (if String.eqb mode "w" then write_inp_mod else write_inp_med)
    df inp_file dat_abs ;;
  match mp with
  | Some ((_ :: _) as items) =>
      let map_file := prefix ++ "_variable_map.csv" in
      write_file map_file (MapCsv ["original"; "mplus"] items) ;;
      print (nl ++ "变量映射表已输出: " ++ abspath E map_file)
  | _ => ret tt
  end ;;
  print (nl ++ "转换完成") ;;
  print dat_abs ;;
  print (abspath E inp_file).

Definition consent_prompt : string :=
  "是否由 mplusprep 自动修复变量名？ [y/N]: ".

Definition refusal : exn := ValueError "用户拒绝自动修复变量名".

(** Lines 74-100 with the sanitiser as a parameter, so that a statement can
    say that a run does not depend on it. *)
Definition convert_with (sanitize : list string -> option dict)
  (inp prefix mode : string) : M unit :=
  df <- read_data inp ;;
  match illegal_names (columns df) with
  | [] => convert_emit df None prefix mode
  | bad =>
      print (nl ++ "检测到 Mplus 非法变量名：") ;;
      for_each bad (fun v => print ("  - " ++ v)) ;;
      ans <- input consent_prompt ;;
      if negb (String.eqb (lower ans) "y") then raise refusal
      else
        match sanitize (columns df) with
        | None => diverge
        | Some mp =>
            let df := rename df mp in
            print (nl ++ "变量名映射：") ;;
            for_each mp (fun kv =>
              if negb (String.eqb (fst kv) (snd kv))
              then print ("  " ++ fst kv ++ " → " ++ snd kv)
              else ret tt) ;;
            convert_emit df (Some mp) prefix mode
        end
  end.

Definition convert : string -> string -> string -> M unit :=
  convert_with sanitize_names.

End Pipeline.

(** ** Reading the artefacts back *)

(** The rows handed to the mapping file [path], if the run wrote one (the
    last write wins). *)
Fixpoint mapping_rows {cell : Type} (path : string)
  (files : list (string * @content cell)) : option (list (string * string)) :=
  match files with
  | [] => None
  | (p, c) :: rest =>
      match mapping_rows path rest with
      | Some r => Some r
      | None =>
          match c with
          | MapCsv _ r => if String.eqb p path then Some r else None
          | _ => None
          end
      end
  end.

Definition audit_rows {cell : Type} (prefix : string) (w : @world cell)
  : option (list (string * string)) :=
  mapping_rows (prefix ++ "_variable_map.csv") (disk w).

(** The entries of a mapping whose identifier was changed. *)
Definition changed_entries (mp : dict) : dict :=
  filter (fun kv => negb (String.eqb (fst kv) (snd kv))) mp.

(** The right-hand sides of MODEL CONSTRAINT, as terms over the labelled
    coefficients, with the text each one is written as and its value. *)
Inductive expr : Type :=
| Name (label : string)
| Zero
| Plus (a b : expr)
| Times (a b : expr)
| Paren (e : expr).

Fixpoint show (e : expr) : string :=
  match e with
  | Name l => l
  | Zero => "0"
  | Plus a b => show a ++ " + " ++ show b
  | Times a b => show a ++ "*" ++ show b
  | Paren a => "(" ++ show a ++ ")"
  end.

Fixpoint eval (env : string -> Z) (e : expr) : Z :=
  match e with
  | Name l => env l
  | Zero => 0%Z
  | Plus a b => (eval env a + eval env b)%Z
  | Times a b => (eval env a * eval env b)%Z
  | Paren a => eval env a
  end.

Definition assign (env : string -> Z) (l : string) (v : Z) : string -> Z :=
  fun x => if String.eqb x l then v else env x.

(** [NAME = expression;] lines are evaluated top to bottom. *)
Fixpoint run_constraints (env : string -> Z) (cs : list (string * expr))
  : string -> Z :=
  match cs with
  | [] => env
  | (l, e) :: rest => run_constraints (assign env l (eval env e)) rest
  end.

Definition show_constraint (c : string * expr) : string :=
  "  " ++ fst c ++ " = " ++ show (snd c) ++ ";" ++ nl.

Definition med_constraints : list (string * expr) :=
  [ ("INDIRECT", Times (Name "a") (Name "b"));
    ("DIRECT", Name "c");
    ("TOTAL", Plus (Name "DIRECT") (Name "INDIRECT")) ].

Definition mod_constraints : list (string * expr) :=
  [ ("INDIRECT",
     Times (Paren (Plus (Name "a1") (Times (Name "a3") Zero))) (Name "b")) ].

(** ** Sample runs *)

Module Sample.

(** A workbook reader that yields the table [df] for every path; nothing on
    disk is read-only. *)
Definition env_of (df : @Table Z) : @environment Z :=
  mkEnv (fun p => (p, ".xlsx")) (fun p => "/work/" ++ p)
        (fun _ => inl "no such file") (fun _ _ => None)
        (fun _ => inl "no text") (fun _ => inr df) (fun _ => inr df)
        (fun _ => true).

Definition start (answers : list string) : @world Z :=
  mkWorld answers [] [].

Definition xmy : @Table Z :=
  mkTable ["X"; "M"; "Y"] [[1; 2; 3]; [4; 5; 6]]%Z.

Definition xmyw : @Table Z :=
  mkTable ["X"; "M"; "Y"; "W"] [[1; 2; 3; 4]]%Z.

Definition survey : @Table Z :=
  mkTable ["1stVar"; "Income(USD)"; "Y"] [[1; 2; 3]; [4; 5; 6]]%Z.

Definition survey_map : dict :=
  [("1stVar", "v1"); ("Income(USD)", "IncomeUS"); ("Y", "Y")].

(** A CSV file of three bytes that no decoder but latin1 accepts. *)
Definition csv_env : @environment Z :=
  mkEnv (fun p => (p, ".csv")) (fun p => "/work/" ++ p)
        (fun _ => inr ["255"; "010"; "049"]%char) (fun _ _ => None)
        (fun _ => inr xmy) (fun _ => inr xmy) (fun _ => inr xmy)
        (fun _ => true).

End Sample.

(** ** Further notions used in the statements *)

(** The candidate names of the columns [cols], the first of them at counter
    value [counter]: line 38 advances the counter once per column. *)
Fixpoint candidates (counter : nat) (cols : list string) : list string :=
  match cols with
  | [] => []
  | c :: rest => candidate counter c :: candidates (S counter) rest
  end.

(** A byte of the ASCII range; on a string of such bytes [lower] is
    [str.lower] itself. *)
Definition is_ascii (c : ascii) : bool := Nat.ltb (nat_of_ascii c) 128.

Definition starts_with_underscore (s : string) : bool :=
  match s with
  | EmptyString => false
  | String h _ => Ascii.eqb h "_"
  end.

(** [s * j] *)
Fixpoint repeat_string (s : string) (j : nat) : string :=
  match j with
  | 0 => EmptyString
  | S j' => s ++ repeat_string s j'
  end.

(** The list comprehension of line 45 before the names of a line are
    joined: the slices [names[i:i + 5]]. *)
Definition name_groups (names : list string) : list (list string) :=
  map (fun i => slice names i (i + 5)) (range_step (List.length names) 5).

(** Lines 102-105, with [sys.argv] and [os.path.isfile] as arguments. *)
Definition normalize_argv (isfile : string -> bool) (argv : list string)
  : list string :=
  match argv with
  | [_; a1] => if isfile a1 then ["mplusprep"; a1] else argv
  | _ => argv
  end.

(** The lines of the console listings of [convert] (lines 80 and 88). *)
Definition illegal_line (v : string) : string := "  - " ++ v.

Definition mapping_line (kv : string * string) : string :=
  "  " ++ fst kv ++ " → " ++ snd kv.

(** The paths of the three artefacts of a run, in the order of their
    writes. *)
Definition artefact_paths (prefix : string) : list string :=
  [prefix ++ ".dat"; prefix ++ ".inp"; prefix ++ "_variable_map.csv"].

Module SampleMore.

(** Two columns with Chinese names and one legal name. *)
Definition cohort : @Table Z :=
  mkTable ["年龄"; "收入"; "Y"] [[1; 2; 3]]%Z.

(** The columns on which the retry loop does not exit. *)
Definition stuck : @Table Z :=
  mkTable ["abcdefg2"; "abcdefg2x"] [[1; 2]]%Z.

Definition two_columns : @Table Z :=
  mkTable ["X"; "M"] [[1; 2]]%Z.

(** An environment whose path has an extension no reader handles. *)
Definition txt_env : @environment Z :=
  mkEnv (fun p => (p, ".TXT")) (fun p => "/work/" ++ p)
        (fun _ => inl "no such file") (fun _ _ => None)
        (fun _ => inl "no text") (fun _ => inr two_columns)
        (fun _ => inr two_columns) (fun _ => true).

End SampleMore.

(** ** The data file as [to_csv] writes it *)

(** [write_dat] is one call, [df.to_csv(path, sep=" ", index=False,
    header=False, float_format="%.6f")].  What follows is the text pandas
    produces for it on cells that are integers, floats, strings or missing:
    no index column, no header row, the cells of a row joined by the
    separator through Python's [csv] writer with minimal quoting, and every
    row closed by [os.linesep]. *)
Module DataFile.

(** A binary64 value: plus or minus [m * 2^e], an infinity, or NaN. *)
Inductive float64 : Type :=
| Finite (negative : bool) (m : N) (e : Z)
| Infinite (negative : bool)
| NaN.

Inductive scalar : Type :=
| IntCell (z : Z)          (* a cell of an integer column *)
| FloatCell (f : float64)  (* a cell of a float column *)
| TextCell (s : string)    (* a string in an object column *)
| Missing.                 (* None or NaN in an object column *)















(** *** Reading the file as the claim does *)














Definition tidy : @Table scalar :=
  mkTable ["id"; "score"; "name"]
    [ [IntCell 1; FloatCell (Finite false 5 (-1)); TextCell "ab"];
      [IntCell (-2); FloatCell (Finite true 1 (-7)); TextCell "c"] ].

(** An environment in which every path can be written. *)
Definition env : @environment scalar :=
  mkEnv (fun p => (p, ".xlsx")) (fun p => "/work/" ++ p)
        (fun _ => inl "no such file") (fun _ _ => None)
        (fun _ => inl "no text") (fun _ => inr tidy) (fun _ => inr tidy)
        (fun _ => true).

End DataFile.

(** * Properties *)

(** ** Strings *)

Lemma length_app (a b : string) :
  String.length (a ++ b) = String.length a + String.length b.
Proof. induction a as [|c a IH]; simpl; [reflexivity | now rewrite IH]. Qed.

Lemma length_take (k : nat) : forall s,
  String.length (take k s) = Nat.min k (String.length s).
Proof.
  induction k as [|k IH]; intros [|c s]; simpl; try reflexivity.
  now rewrite IH.
Qed.

Lemma take_all (k : nat) : forall s, String.length s <= k -> take k s = s.
Proof.
  induction k as [|k IH]; intros [|c s] H; simpl in *; try reflexivity.
  - lia.
  - f_equal. apply IH. lia.
Qed.

Lemma take_app_exact (a b : string) : take (String.length a) (a ++ b) = a.
Proof. induction a as [|c a IH]; simpl; [now destruct b | now rewrite IH]. Qed.

Lemma all_chars_app (p : ascii -> bool) (a b : string) :
  all_chars p (a ++ b) = all_chars p a && all_chars p b.
Proof.
  induction a as [|c a IH]; simpl; [reflexivity|].
  now rewrite IH, andb_assoc.
Qed.

Lemma all_chars_take (p : ascii -> bool) (k : nat) : forall s,
  all_chars p s = true -> all_chars p (take k s) = true.
Proof.
  induction k as [|k IH]; intros [|c s] H; simpl in *; try reflexivity.
  apply andb_true_iff in H as [Hc Hs]. now rewrite Hc, IH.
Qed.

Lemma all_chars_weaken (p q : ascii -> bool) (s : string) :
  (forall c, p c = true -> q c = true) ->
  all_chars p s = true -> all_chars q s = true.
Proof.
  intros Hpq. induction s as [|c s IH]; simpl; [reflexivity|].
  intros H. apply andb_true_iff in H as [Hc Hs]. now rewrite Hpq, IH.
Qed.

Lemma digit_is_word (c : ascii) : is_digit c = true -> is_word c = true.
Proof. unfold is_word. intros ->. now rewrite orb_true_r. Qed.

Lemma letter_is_word (c : ascii) : is_letter c = true -> is_word c = true.
Proof. unfold is_word. now intros ->. Qed.

Lemma letter_not_digit (c : ascii) : is_letter c = true -> is_digit c = false.
Proof.
  destruct c as [[] [] [] [] [] [] [] []]; vm_compute; congruence.
Qed.

Lemma string_of_uint_digits (u : Decimal.uint) :
  all_chars is_digit (NilEmpty.string_of_uint u) = true.
Proof. induction u; simpl; auto. Qed.

Lemma str_nat_digits (n : nat) : all_chars is_digit (str_nat n) = true.
Proof. apply string_of_uint_digits. Qed.

Lemma str_nat_word (n : nat) : all_chars is_word (str_nat n) = true.
Proof.
  apply all_chars_weaken with (p := is_digit);
    [exact digit_is_word | apply str_nat_digits].
Qed.

(** [str(counter % 10)] is one character. *)
Lemma digit_length (counter : nat) :
  String.length (str_nat (counter mod 10)) = 1.
Proof.
  assert (H : counter mod 10 < 10) by (apply Nat.mod_upper_bound; lia).
  remember (counter mod 10) as d eqn:Hd. clear Hd.
  do 10 (destruct d as [|d]; [reflexivity|]). lia.
Qed.

Lemma mem_true (n : string) (used : list string) :
  mem n used = true <-> In n used.
Proof.
  unfold mem. rewrite existsb_exists. split.
  - intros [x [Hx He]]. apply String.eqb_eq in He. now subst.
  - intros H. exists n. split; [assumption | apply String.eqb_refl].
Qed.

Lemma mem_false (n : string) (used : list string) :
  mem n used = false <-> ~ In n used.
Proof.
  rewrite <- mem_true. destruct (mem n used); split; congruence.
Qed.

(** ** The retry loop *)

Section Retry.

Variable used : list string.
Variable counter : nat.

Lemma perturb_length (n : string) :
  String.length (perturb counter n) = Nat.min 7 (String.length n) + 1.
Proof.
  unfold perturb. now rewrite length_app, length_take, digit_length.
Qed.

(** Once the name has seven characters the body always builds the same
    string. *)
Lemma perturb_stable (n : string) :
  7 <= String.length n ->
  perturb counter (perturb counter n) = perturb counter n.
Proof.
  intros H. unfold perturb at 1 3. f_equal.
  unfold perturb.
  assert (L : String.length (take 7 n) = 7) by (rewrite length_take; lia).
  rewrite <- L at 1. apply take_app_exact.
Qed.

Lemma after_succ (k : nat) : forall n,
  after counter (S k) n = perturb counter (after counter k n).
Proof.
  induction k as [|k IH]; intros n; [reflexivity|].
  change (after counter (S (S k)) n) with (after counter (S k) (perturb counter n)).
  now rewrite IH.
Qed.

Lemma after_length (k : nat) : forall n,
  Nat.min 7 (String.length n + k) <= String.length (after counter k n).
Proof.
  induction k as [|k IH]; intros n; cbn [after]; [lia|].
  specialize (IH (perturb counter n)). rewrite perturb_length in IH. lia.
Qed.

Lemma after_fuel_stable (n : string) :
  perturb counter (after counter retry_fuel n) = after counter retry_fuel n.
Proof.
  unfold retry_fuel. rewrite after_succ. apply perturb_stable.
  pose proof (after_length 7 n). lia.
Qed.

Lemma retry_sound (fuel : nat) : forall n n',
  retry fuel used counter n = Some n' -> while_exit used counter n n'.
Proof.
  induction fuel as [|f IH]; intros n n'; simpl;
    destruct (mem n used) eqn:Hm; intros H; try discriminate.
  - injection H as <-. now constructor.
  - apply WhileStep; auto.
  - injection H as <-. now constructor.
Qed.

Lemma while_exit_stuck (x n' : string) :
  mem x used = true -> perturb counter x = x ->
  ~ while_exit used counter x n'.
Proof.
  intros Hm Hfix H. induction H as [n Hn | n n' Hn H IH].
  - congruence.
  - rewrite Hfix in IH. now apply IH.
Qed.

Lemma retry_complete_from (fuel : nat) : forall n n',
  perturb counter (after counter fuel n) = after counter fuel n ->
  while_exit used counter n n' ->
  retry fuel used counter n = Some n'.
Proof.
  induction fuel as [|f IH]; intros n n' Hfix H.
  - simpl in *. inversion H; subst.
    + now rewrite H0.
    + exfalso. eapply while_exit_stuck; eauto.
  - simpl. inversion H; subst.
    + now rewrite H0.
    + rewrite H0. apply IH; assumption.
Qed.

(** Eight executions of the body decide the loop. *)
Lemma retry_complete (n n' : string) :
  while_exit used counter n n' ->
  retry retry_fuel used counter n = Some n'.
Proof. apply retry_complete_from, after_fuel_stable. Qed.

Lemma retry_exact (n n' : string) :
  retry retry_fuel used counter n = Some n' <-> while_exit used counter n n'.
Proof. split; [apply retry_sound | apply retry_complete]. Qed.

Lemma retry_fresh (fuel : nat) (n : string) :
  mem n used = false -> retry fuel used counter n = Some n.
Proof. intros H. destruct fuel; simpl; now rewrite H. Qed.

Lemma while_exit_not_used (n n' : string) :
  while_exit used counter n n' -> ~ In n' used.
Proof. induction 1; [now apply mem_false | assumption]. Qed.

End Retry.

(** The bounded function and the unbounded runs agree. *)
Lemma sanitize_loop_exact (cols : list string) : forall mp used counter mp',
  sanitize_loop cols mp used counter = Some mp'
  <-> sanitize_exec cols mp used counter mp'.
Proof.
  induction cols as [|c rest IH]; intros mp used counter mp';
    cbn [sanitize_loop].
  - split.
    + intros H. injection H as <-. constructor.
    + intros H. now inversion H.
  - split.
    + destruct (retry retry_fuel used counter (candidate counter c))
        as [n|] eqn:Hr; [|intros H; discriminate H].
      intros H. apply ExecCons with (n := n).
      * now apply retry_exact.
      * now apply IH.
    + intros H. inversion H; subst.
      match goal with
      | Hw : while_exit _ _ _ _ |- _ => apply retry_exact in Hw; rewrite Hw
      end.
      now apply IH.
Qed.

(** ** Dictionaries *)

Lemma values_dict_set (k v : string) (d : dict) :
  incl (values (dict_set k v d)) (v :: values d).
Proof.
  induction d as [|[k' v'] r IH]; simpl.
  - apply incl_refl.
  - destruct (String.eqb k' k); simpl.
    + apply incl_cons; [now left|]. apply incl_tl, incl_tl, incl_refl.
    + apply incl_cons; [right; now left|].
      intros x Hx. destruct (IH x Hx) as [<-|Hr]; [now left | right; now right].
Qed.

Lemma NoDup_values_dict_set (k v : string) (d : dict) :
  ~ In v (values d) -> NoDup (values d) -> NoDup (values (dict_set k v d)).
Proof.
  induction d as [|[k' v'] r IH]; simpl; intros Hv Hd.
  - constructor; [auto | constructor].
  - inversion Hd as [|? ? Hv' Hr]; subst.
    destruct (String.eqb k' k); simpl.
    + constructor; auto.
    + constructor.
      * intros Hin. apply values_dict_set in Hin. destruct Hin as [<-|Hin]; auto.
      * apply IH; auto.
Qed.

Lemma Forall_values_dict_set (P : string -> Prop) (k v : string) (d : dict) :
  P v -> Forall P (values d) -> Forall P (values (dict_set k v d)).
Proof.
  intros Hv. induction d as [|[k' v'] r IH]; simpl; intros Hd.
  - now constructor.
  - inversion Hd; subst. destruct (String.eqb k' k); simpl; constructor; auto.
Qed.

Lemma dict_set_new (k v : string) (d : dict) :
  ~ In k (keys d) -> dict_set k v d = (d ++ [(k, v)])%list.
Proof.
  induction d as [|[k' v'] r IH]; simpl; intros H; [reflexivity|].
  destruct (String.eqb k' k) eqn:He.
  - apply String.eqb_eq in He. exfalso. apply H. now left.
  - f_equal. apply IH. intros Hin. apply H. now right.
Qed.

(** ** What [sanitize_names] guarantees when it returns *)

Lemma re_sub_nonword_word (s : string) :
  all_chars is_word (re_sub_nonword s) = true.
Proof.
  induction s as [|c s IH]; simpl; [reflexivity|].
  destruct (is_word c) eqn:Hc; simpl; [now rewrite Hc|assumption].
Qed.

Lemma re_sub_nonword_id (s : string) :
  all_chars is_word s = true -> re_sub_nonword s = s.
Proof.
  induction s as [|c s IH]; simpl; [reflexivity|].
  intros H. apply andb_true_iff in H as [Hc Hs]. now rewrite Hc, IH.
Qed.

Lemma needs_placeholder_take (k : nat) (n : string) :
  needs_placeholder (take (S k) n) = needs_placeholder n.
Proof. now destruct n. Qed.

Lemma needs_placeholder_app (a b : string) :
  needs_placeholder a = false -> needs_placeholder (a ++ b) = false.
Proof. now destruct a. Qed.

Lemma well_formed_intro (s : string) :
  needs_placeholder s = false -> all_chars is_word s = true ->
  String.length s <= 8 -> well_formed s = true.
Proof.
  intros Hp Hw Hl. unfold well_formed. rewrite Hp, Hw.
  now apply Nat.leb_le in Hl as ->.
Qed.

Lemma well_formed_elim (s : string) :
  well_formed s = true ->
  needs_placeholder s = false /\ all_chars is_word s = true
  /\ String.length s <= 8.
Proof.
  unfold well_formed. intros H.
  apply andb_true_iff in H as [H Hl]. apply andb_true_iff in H as [Hp Hw].
  apply negb_true_iff in Hp. apply Nat.leb_le in Hl. auto.
Qed.

Lemma well_formed_take8 (n : string) :
  needs_placeholder n = false -> all_chars is_word n = true ->
  well_formed (take 8 n) = true.
Proof.
  intros Hp Hw. apply well_formed_intro.
  - now rewrite needs_placeholder_take.
  - now apply all_chars_take.
  - rewrite length_take. lia.
Qed.

Lemma candidate_well_formed (counter : nat) (c : string) :
  well_formed (candidate counter c) = true.
Proof.
  unfold candidate.
  destruct (needs_placeholder (re_sub_nonword c)) eqn:Hp.
  - apply well_formed_take8; [reflexivity|].
    rewrite all_chars_app. now rewrite str_nat_word.
  - apply well_formed_take8; [assumption | apply re_sub_nonword_word].
Qed.

Lemma perturb_well_formed (counter : nat) (n : string) :
  well_formed n = true -> well_formed (perturb counter n) = true.
Proof.
  intros H. apply well_formed_elim in H as (Hp & Hw & Hl).
  apply well_formed_intro.
  - unfold perturb. apply needs_placeholder_app.
    now rewrite needs_placeholder_take.
  - unfold perturb. rewrite all_chars_app, str_nat_word.
    now rewrite all_chars_take.
  - rewrite perturb_length. lia.
Qed.

Lemma while_exit_well_formed (used : list string) (counter : nat)
  (n n' : string) :
  while_exit used counter n n' -> well_formed n = true ->
  well_formed n' = true.
Proof. induction 1; auto using perturb_well_formed. Qed.

(** A well-formed name misses the Symbol Grammar only by a leading
    underscore. *)
Lemma well_formed_grammar (s : string) :
  well_formed s = true ->
  symbol_grammar s = true \/ exists r, s = String "_" r.
Proof.
  intros H. apply well_formed_elim in H as (Hp & Hw & Hl).
  destruct s as [|h r]; [discriminate|].
  unfold symbol_grammar. apply Nat.leb_le in Hl. rewrite Hl.
  simpl in Hp, Hw. apply andb_true_iff in Hw as [Hh Hr]. rewrite Hr.
  unfold is_word in Hh. rewrite Hp, orb_false_r in Hh.
  apply orb_true_iff in Hh as [Hl'|Hu].
  - left. now rewrite Hl'.
  - right. apply Ascii.eqb_eq in Hu. subst. now exists r.
Qed.

Lemma sanitize_loop_invariant (cols : list string) :
  forall mp used counter mp',
  sanitize_loop cols mp used counter = Some mp' ->
  incl (values mp) used -> NoDup (values mp) ->
  Forall (fun v => well_formed v = true) (values mp) ->
  NoDup (values mp') /\ Forall (fun v => well_formed v = true) (values mp').
Proof.
  induction cols as [|c rest IH]; intros mp used counter mp';
    cbn [sanitize_loop].
  - intros H. injection H as <-. auto.
  - destruct (retry retry_fuel used counter (candidate counter c))
      as [n|] eqn:Hr; [|intros H; discriminate H].
    apply retry_sound in Hr. intros H Hincl Hnd Hwf.
    apply IH in H; auto.
    + intros x Hx. apply values_dict_set in Hx.
      destruct Hx as [<-|Hx]; [now left | right; auto].
    + apply NoDup_values_dict_set; auto.
      intros Hin. apply (while_exit_not_used _ _ _ _ Hr). auto.
    + apply Forall_values_dict_set; auto.
      eapply while_exit_well_formed; eauto using candidate_well_formed.
Qed.

Lemma sanitize_loop_keys (cols : list string) :
  forall mp used counter mp',
  sanitize_loop cols mp used counter = Some mp' ->
  NoDup (keys mp ++ cols) -> keys mp' = (keys mp ++ cols)%list.
Proof.
  induction cols as [|c rest IH]; intros mp used counter mp';
    cbn [sanitize_loop].
  - intros H _. injection H as <-. now rewrite app_nil_r.
  - destruct (retry retry_fuel used counter (candidate counter c))
      as [n|] eqn:Hr; [|intros H; discriminate H].
    intros H Hnd.
    assert (Hc : ~ In c (keys mp)).
    { intros Hin. apply NoDup_remove_2 in Hnd. apply Hnd.
      apply in_or_app. now left. }
    rewrite dict_set_new in H by assumption.
    apply IH in H.
    + rewrite H. unfold keys. rewrite map_app. simpl.
      now rewrite <- app_assoc.
    + unfold keys. rewrite map_app. simpl. rewrite <- app_assoc. exact Hnd.
Qed.

(** Partial correctness of [sanitize_names]: on a list of distinct
    identifiers, a run that returns gives one entry per identifier, in
    order, with pairwise distinct, well-formed generated names. *)
Theorem sanitize_names_sound (cols : list string) (mp : dict) :
  NoDup cols -> sanitize_names cols = Some mp ->
  keys mp = cols /\ NoDup (values mp)
  /\ Forall (fun v => well_formed v = true) (values mp).
Proof.
  unfold sanitize_names. intros Hnd H. split.
  - apply sanitize_loop_keys in H; auto.
  - apply sanitize_loop_invariant in H; simpl; auto using incl_refl.
    constructor.
Qed.

(** A repeated identifier keeps one entry, the last name assigned to it; the
    columns of a table are distinct, so [convert] never passes one. *)
Example sanitize_names_repeated :
  sanitize_names ["a"; "a"] = Some [("a", "a2")].
Proof. reflexivity. Qed.

(** The second scenario of the specification. *)
Example sanitize_names_survey :
  sanitize_names ["1stVar"; "Income(USD)"; "Y"] = Some Sample.survey_map.
Proof. reflexivity. Qed.

(** ** The Symbol Grammar and the validator *)

Lemma ident_tail_word (s : string) :
  all_chars is_word s = true -> ident_tail s = true.
Proof.
  induction s as [|c s IH]; simpl; [reflexivity|].
  intros H. apply andb_true_iff in H as [Hc Hs]. rewrite Hc. auto.
Qed.

Lemma symbol_grammar_elim (s : string) :
  symbol_grammar s = true ->
  exists h r, s = String h r /\ is_letter h = true
              /\ all_chars is_word r = true /\ String.length s <= 8.
Proof.
  destruct s as [|h r]; [discriminate|]. unfold symbol_grammar. intros H.
  apply andb_true_iff in H as [H Hl]. apply andb_true_iff in H as [Hh Hr].
  apply Nat.leb_le in Hl. exists h, r. auto.
Qed.

(** A name of the grammar is never reported. *)
Lemma grammar_not_illegal (s : string) :
  symbol_grammar s = true -> is_illegal s = false.
Proof.
  intros H. apply symbol_grammar_elim in H as (h & r & -> & Hh & Hr & Hl).
  unfold is_illegal, re_match_ident. rewrite Hh, ident_tail_word by assumption.
  simpl negb. simpl orb. apply Nat.ltb_ge. exact Hl.
Qed.

Lemma illegal_names_grammar (cols : list string) :
  Forall (fun c => symbol_grammar c = true) cols -> illegal_names cols = [].
Proof.
  induction 1 as [|c cols Hc _ IH]; [reflexivity|].
  unfold illegal_names in *. simpl. now rewrite grammar_not_illegal.
Qed.

(** The converse fails: [$] lets one trailing newline through. *)
Example trailing_newline_passes :
  illegal_names ["abc" ++ nl] = [] /\ symbol_grammar ("abc" ++ nl) = false.
Proof. split; reflexivity. Qed.

Lemma candidate_grammar (counter : nat) (c : string) :
  symbol_grammar c = true -> candidate counter c = c.
Proof.
  intros H. apply symbol_grammar_elim in H as (h & r & -> & Hh & Hr & Hl).
  unfold candidate.
  assert (Hw : all_chars is_word (String h r) = true).
  { simpl. now rewrite letter_is_word. }
  rewrite re_sub_nonword_id by assumption.
  simpl needs_placeholder. rewrite letter_not_digit by assumption.
  now apply take_all.
Qed.

Lemma sanitize_loop_identity (cols : list string) :
  forall mp used counter,
  NoDup cols -> Forall (fun c => symbol_grammar c = true) cols ->
  (forall c, In c cols -> ~ In c used) ->
  (forall c, In c cols -> ~ In c (keys mp)) ->
  sanitize_loop cols mp used counter
  = Some (mp ++ map (fun c => (c, c)) cols)%list.
Proof.
  induction cols as [|c rest IH]; intros mp used counter Hnd Hg Hu Hk;
    cbn [sanitize_loop map].
  - now rewrite app_nil_r.
  - inversion Hnd as [|? ? Hc Hrest]; subst.
    inversion Hg as [|? ? Hgc Hgrest]; subst.
    rewrite candidate_grammar by assumption.
    rewrite retry_fresh by (apply mem_false, Hu; now left).
    rewrite dict_set_new by (apply Hk; now left).
    rewrite IH; auto.
    + now rewrite <- app_assoc.
    + intros x Hx [<-|Hin]; [contradiction|].
      apply (Hu x); [now right | assumption].
    + intros x Hx Hin. unfold keys in Hin. rewrite map_app in Hin.
      apply in_app_or in Hin as [Hin|[<-|[]]]; [|contradiction].
      apply (Hk x); [now right | assumption].
Qed.

(** ** Claims about [sanitize_names] *)

(** C2 (the code departs from the claim).  The claim: the retry loop of
    [sanitize_names] terminates on every input.  The run on the two distinct
    column identifiers [abcdefg2], [abcdefg2x], of which only the second is
    reported by [illegal_names], never leaves the loop: the second candidate
    is [abcdefg2], which is taken, and the body rebuilds the same string at
    each execution because [counter] does not change inside the loop.  So the
    bounded function gives [None] and no terminating run exists. *)
Theorem sanitize_names_retry_never_exits :
  NoDup ["abcdefg2"; "abcdefg2x"]
  /\ illegal_names ["abcdefg2"; "abcdefg2x"] = ["abcdefg2x"]
  /\ candidate 2 "abcdefg2x" = "abcdefg2"
  /\ perturb 2 "abcdefg2" = "abcdefg2"
  /\ sanitize_names ["abcdefg2"; "abcdefg2x"] = None
  /\ forall mp, ~ sanitize_exec ["abcdefg2"; "abcdefg2x"] [] [] 1 mp.
Proof.
  repeat split; try reflexivity.
  - repeat constructor; simpl; intuition discriminate.
  - intros mp H. apply sanitize_loop_exact in H. discriminate H.
Qed.

(** C3 (the code departs from the claim).  The claim: every generated name
    satisfies the Symbol Grammar.  On the single column identifier [_a] the
    run returns the mapping [_a -> _a]: the underscore survives the
    stripping, the placeholder is used only for an empty name or a leading
    digit, and the generated name is one that [illegal_names] itself
    reports. *)
Theorem sanitize_names_keeps_leading_underscore :
  illegal_names ["_a"] = ["_a"]
  /\ sanitize_names ["_a"] = Some [("_a", "_a")]
  /\ symbol_grammar "_a" = false
  /\ illegal_names (values [("_a", "_a")]) = ["_a"].
Proof. repeat split; reflexivity. Qed.

(** C8.  Sanitising a list of pairwise distinct identifiers that all satisfy
    the Symbol Grammar returns, and returns the identity mapping, one entry
    per identifier in order. *)
Theorem sanitize_names_identity_on_legal (cols : list string) :
  NoDup cols -> Forall (fun c => symbol_grammar c = true) cols ->
  sanitize_names cols = Some (map (fun c => (c, c)) cols).
Proof.
  intros Hnd Hg. unfold sanitize_names.
  rewrite sanitize_loop_identity; auto.
Qed.

Lemma sanitize_names_identity_on_legal_witness :
  NoDup ["X"; "M"; "Y"]
  /\ Forall (fun c => symbol_grammar c = true) ["X"; "M"; "Y"]
  /\ sanitize_names ["X"; "M"; "Y"] = Some [("X", "X"); ("M", "M"); ("Y", "Y")].
Proof.
  assert (Hnd : NoDup ["X"; "M"; "Y"]).
  { repeat constructor; simpl; intuition discriminate. }
  assert (Hg : Forall (fun c => symbol_grammar c = true) ["X"; "M"; "Y"]).
  { repeat constructor. }
  split; [exact Hnd|]. split; [exact Hg|].
  exact (sanitize_names_identity_on_legal ["X"; "M"; "Y"] Hnd Hg).
Defined.

(** ** Pieces of a written file *)

Lemma append_nil_r (a : string) : a ++ "" = a.
Proof. induction a as [|c a IH]; simpl; [reflexivity | now rewrite IH]. Qed.

Lemma append_assoc (a b c : string) : (a ++ b) ++ c = a ++ (b ++ c).
Proof. induction a as [|x a IH]; simpl; [reflexivity | now rewrite IH]. Qed.

Lemma concat_cons (x : string) (r : list string) :
  String.concat "" (x :: r) = x ++ String.concat "" r.
Proof. destruct r; simpl; [now rewrite append_nil_r | reflexivity]. Qed.

Lemma concat_app (a b : list string) :
  String.concat "" (a ++ b) = String.concat "" a ++ String.concat "" b.
Proof.
  induction a as [|x a IH]; [reflexivity|].
  rewrite <- app_comm_cons, !concat_cons, IH. now rewrite append_assoc.
Qed.

(** Consecutive writes form a contiguous piece of the file. *)
Lemma occurs_slice (chunks : list string) (i j : nat) :
  occurs (String.concat "" (slice chunks i j)) (String.concat "" chunks).
Proof.
  unfold occurs, slice.
  exists (String.concat "" (firstn i chunks)),
         (String.concat "" (skipn (j - i) (skipn i chunks))).
  rewrite <- !concat_app. now rewrite !firstn_skipn.
Qed.

Lemma occurs_eq (t t' s : string) : t = t' -> occurs t' s -> occurs t s.
Proof. now intros ->. Qed.

Ltac string_normal :=
  cbn [String.concat slice firstn skipn Nat.sub append map show_constraint
       show fst snd];
  repeat (progress (repeat rewrite append_assoc; cbn [append]));
  try reflexivity.

Ltac piece writes i j :=
  eapply occurs_eq; [ | apply (occurs_slice writes i j) ];
  cbv delta [nl med_writes mod_writes]; string_normal.

(** ** The pipeline *)

Section PipelineFacts.

Context {cell : Type} (E : @environment cell).

(** *** Ingestion *)

Lemma decode_latin1_total (bs : list ascii) :
  decode E "latin1" bs = Some (decode_latin1 bs).
Proof. reflexivity. Qed.

Lemma pd_read_csv_latin1 (p msg : string) :
  pd_read_csv E p "latin1" <> inl (UnicodeDecodeError msg).
Proof.
  unfold pd_read_csv. destruct (open_bytes E p); [discriminate|].
  rewrite decode_latin1_total. destruct (parse_csv E _); discriminate.
Qed.

(** The candidate loop stops at the first encoding whose attempt does not
    end in a decoding error, and leaves the world as it found it. *)
Lemma try_encodings_first (p : string) (w : world) (es : list string) :
  (exists e, In e es
             /\ forall msg, pd_read_csv E p e <> inl (UnicodeDecodeError msg)) ->
  exists pre e post,
    es = (pre ++ e :: post)%list
    /\ (forall e', In e' pre ->
          exists msg, pd_read_csv E p e' = inl (UnicodeDecodeError msg))
    /\ (forall msg, pd_read_csv E p e <> inl (UnicodeDecodeError msg))
    /\ try_encodings E p es w
       = (match pd_read_csv E p e with
          | inr df => Returned (Some (df, e))
          | inl x => Raised x
          end, w).
Proof.
  induction es as [|e es IH]; intros (e0 & Hin & Hok); [destruct Hin|].
  assert (Stop : (forall msg, pd_read_csv E p e <> inl (UnicodeDecodeError msg)) ->
    exists pre e1 post,
      (e :: es = pre ++ e1 :: post)%list
      /\ (forall e', In e' pre ->
            exists msg, pd_read_csv E p e' = inl (UnicodeDecodeError msg))
      /\ (forall msg, pd_read_csv E p e1 <> inl (UnicodeDecodeError msg))
      /\ try_encodings E p (e :: es) w
         = (match pd_read_csv E p e1 with
            | inr df => Returned (Some (df, e1))
            | inl x => Raised x
            end, w)).
  { intros Hne. exists [], e, es. repeat split; auto.
    - intros e' [].
    - cbn [try_encodings]. destruct (pd_read_csv E p e) as [x|df];
        [|reflexivity].
      destruct x; try reflexivity. exfalso. now apply (Hne msg). }
  destruct (pd_read_csv E p e) as [x|df] eqn:Hr.
  - destruct x; try (apply Stop; intros; discriminate).
    destruct Hin as [<-|Hin]; [exfalso; now apply (Hok msg)|].
    destruct IH as (pre & e1 & post & Hes & Hpre & Hne & Hrun);
      [now exists e0|].
    exists (e :: pre), e1, post. repeat split; auto.
    + simpl. now rewrite Hes.
    + intros e' [<-|He']; [now exists msg | auto].
    + cbn [try_encodings]. now rewrite Hr.
  - apply Stop. intros; discriminate.
Qed.


(** *** The templates *)

Lemma med_constraints_value (env : string -> Z) :
  let env' := run_constraints env med_constraints in
  env' "INDIRECT" = (env "a" * env "b")%Z
  /\ env' "DIRECT" = env "c"
  /\ env' "TOTAL" = (env "c" + env "a" * env "b")%Z.
Proof. cbv [run_constraints med_constraints eval assign String.eqb Ascii.eqb Bool.eqb]. auto. Qed.

Lemma mod_constraints_value (env : string -> Z) :
  run_constraints env mod_constraints "INDIRECT" = (env "a1" * env "b")%Z.
Proof.
  cbv [run_constraints mod_constraints eval assign String.eqb Ascii.eqb Bool.eqb].
  now rewrite Z.mul_0_r, Z.add_0_r.
Qed.

(** C6.  On a table with at least three columns the mediation renderer
    writes one script.  Its role variables are the first three columns in
    table order; the model has the three statements mediator on predictor
    (a), outcome on mediator (b), outcome on predictor (c) and nothing else;
    the constraints declare DIRECT, INDIRECT and TOTAL with INDIRECT = a*b,
    DIRECT = c and TOTAL = DIRECT + INDIRECT, whose values are a*b, c and
    c + a*b. *)
Theorem write_inp_med_template (df : Table) (out dat_abs : string)
  (w : world) (X M Y : string) (rest : list string) :
  columns df = X :: M :: Y :: rest -> can_write E out = true ->
  let text := med_script X M Y (columns df) dat_abs in
  write_inp_med E df out dat_abs w
  = (Returned tt,
     mkWorld (stdin w) (stdout w) (disk w ++ [(out, Script text)])%list)
  /\ firstn 3 (columns df) = [X; M; Y]
  /\ occurs ("  USEVARIABLES = " ++ X ++ " " ++ M ++ " " ++ Y ++ ";"
             ++ nl ++ nl) text
  /\ occurs ("MODEL:" ++ nl
             ++ "  " ++ M ++ " ON " ++ X ++ " (a);" ++ nl
             ++ "  " ++ Y ++ " ON " ++ M ++ " (b);" ++ nl
             ++ "  " ++ Y ++ " ON " ++ X ++ " (c);" ++ nl ++ nl
             ++ "MODEL CONSTRAINT:" ++ nl
             ++ "  NEW(DIRECT INDIRECT TOTAL);" ++ nl
             ++ "  INDIRECT = a*b;" ++ nl
             ++ "  DIRECT = c;" ++ nl
             ++ "  TOTAL = DIRECT + INDIRECT;" ++ nl ++ nl) text
  /\ String.concat "" (map show_constraint med_constraints)
     = "  INDIRECT = a*b;" ++ nl ++ "  DIRECT = c;" ++ nl
       ++ "  TOTAL = DIRECT + INDIRECT;" ++ nl
  /\ forall env : string -> Z,
       let env' := run_constraints env med_constraints in
       env' "INDIRECT" = (env "a" * env "b")%Z
       /\ env' "DIRECT" = env "c"
       /\ env' "TOTAL" = (env' "DIRECT" + env' "INDIRECT")%Z.
Proof.
  intros Hcols Hw text. split; [|split; [|split; [|split; [|split]]]].
  - unfold write_inp_med, write_file. rewrite Hcols. cbn [firstn].
    rewrite Hw. subst text. now rewrite Hcols.
  - now rewrite Hcols.
  - subst text. unfold med_script.
    piece (med_writes X M Y (columns df) dat_abs) 6 7.
  - subst text. unfold med_script.
    piece (med_writes X M Y (columns df) dat_abs) 8 13.
  - reflexivity.
  - intros env env'. destruct (med_constraints_value env) as (Hi & Hd & Ht).
    fold env' in Hi, Hd, Ht. rewrite Ht, Hd, Hi. auto.
Qed.

(** C4.  On a table with at least four columns the moderated-mediation
    renderer writes one script.  USEVARIABLES lists the first four columns
    and XW; DEFINE sets XW to the product of the first and the fourth
    column; the model labels the coefficients a1, a2, a3 and b; the only
    constraint is INDIRECT = (a1 + a3*0)*b, whose value is a1*b whatever a3
    is. *)
Theorem write_inp_mod_template (df : Table) (out dat_abs : string)
  (w : world) (X M Y W : string) (rest : list string) :
  columns df = X :: M :: Y :: W :: rest -> can_write E out = true ->
  let text := mod_script X M Y W (columns df) dat_abs in
  write_inp_mod E df out dat_abs w
  = (Returned tt,
     mkWorld (stdin w) (stdout w) (disk w ++ [(out, Script text)])%list)
  /\ occurs ("  USEVARIABLES = " ++ X ++ " " ++ M ++ " " ++ Y ++ " " ++ W
             ++ " XW;" ++ nl ++ nl
             ++ "DEFINE:" ++ nl
             ++ "  XW = " ++ X ++ "*" ++ W ++ ";" ++ nl ++ nl) text
  /\ occurs ("MODEL:" ++ nl
             ++ "  " ++ M ++ " ON " ++ X ++ " (a1) " ++ W
             ++ " (a2) XW (a3);" ++ nl
             ++ "  " ++ Y ++ " ON " ++ M ++ " (b) " ++ X ++ ";" ++ nl ++ nl
             ++ "MODEL CONSTRAINT:" ++ nl
             ++ "  NEW(INDIRECT);" ++ nl
             ++ "  INDIRECT = (a1 + a3*0)*b;" ++ nl ++ nl) text
  /\ String.concat "" (map show_constraint mod_constraints)
     = "  INDIRECT = (a1 + a3*0)*b;" ++ nl
  /\ forall (env : string -> Z) (a3 : Z),
       run_constraints env mod_constraints "INDIRECT"
       = (env "a1" * env "b")%Z
       /\ run_constraints (assign env "a3" a3) mod_constraints "INDIRECT"
          = run_constraints env mod_constraints "INDIRECT".
Proof.
  intros Hcols Hw text. split; [|split; [|split; [|split]]].
  - unfold write_inp_mod, write_file. rewrite Hcols. cbn [firstn].
    rewrite Hw. subst text. now rewrite Hcols.
  - subst text. unfold mod_script.
    piece (mod_writes X M Y W (columns df) dat_abs) 6 9.
  - subst text. unfold mod_script.
    piece (mod_writes X M Y W (columns df) dat_abs) 10 14.
  - reflexivity.
  - intros env a3. split; [apply mod_constraints_value|].
    now rewrite !mod_constraints_value.
Qed.

(** *** Runs of the monad *)

Lemma bind_returned {A B} (m : @M cell A) (k : A -> @M cell B) (w w' : @world cell) (a : A) :
  m w = (Returned a, w') -> bind m k w = k a w'.
Proof. unfold bind. now intros ->. Qed.

Lemma for_each_print {A} (f : A -> string) (l : list A) : forall w : @world cell,
  for_each l (fun x => print (f x)) w
  = (Returned tt, mkWorld (stdin w) (stdout w ++ map f l)%list (disk w)).
Proof.
  induction l as [|x l IH]; intros w; cbn [for_each map].
  - unfold ret. rewrite app_nil_r. now destruct w.
  - unfold bind, print. rewrite IH. cbn [stdin stdout disk].
    now rewrite <- app_assoc.
Qed.

Lemma for_each_keeps {A} (body : A -> @M cell unit) (l : list A) :
  (forall x w, fst (body x w) = Returned tt
               /\ stdin (snd (body x w)) = stdin w
               /\ disk (snd (body x w)) = disk w) ->
  forall w, fst (for_each l body w) = Returned tt
            /\ stdin (snd (for_each l body w)) = stdin w
            /\ disk (snd (for_each l body w)) = disk w.
Proof.
  intros Hb. induction l as [|x l IH]; intros w; cbn [for_each].
  - unfold ret. simpl. auto.
  - unfold bind. destruct (Hb x w) as (H1 & H2 & H3).
    destruct (body x w) as [o w1]. simpl in H1, H2, H3. subst o.
    destruct (IH w1) as (I1 & I2 & I3). rewrite I2, I3, H2, H3. auto.
Qed.

Lemma try_encodings_world (p : string) (es : list string) :
  forall w, snd (try_encodings E p es w) = w.
Proof.
  induction es as [|e es IH]; intros w; cbn [try_encodings]; [reflexivity|].
  destruct (pd_read_csv E p e) as [x|df]; [|reflexivity].
  destruct x; try reflexivity. apply IH.
Qed.

Lemma lift_world {A} (r : exn + A) (w : @world cell) : snd (lift r w) = w.
Proof. now destruct r. Qed.

(** Ingestion writes no file. *)
Lemma read_data_disk (p : string) (w : @world cell) :
  disk (snd (read_data E p w)) = disk w.
Proof.
  unfold read_data.
  destruct (String.eqb (lower (snd (splitext E p))) ".csv").
  - unfold bind, read_csv_with_fallback, bind.
    pose proof (try_encodings_world p encodings w) as Hw.
    destruct (try_encodings E p encodings w) as [[[found|]| |] w1];
      simpl in Hw; subst w1; try reflexivity.
    unfold input. destruct (stdin w) as [|ans rest]; [reflexivity|].
    destruct (String.eqb (lower ans) "y"); [|reflexivity].
    unfold lift. destruct (pd_read_csv E p "latin1"); reflexivity.
  - destruct (String.eqb _ ".xlsx" || String.eqb _ ".xls");
      [now rewrite lift_world|].
    destruct (String.eqb _ ".sav"); [now rewrite lift_world | reflexivity].
Qed.

(** The emission steps never read the user's answers. *)
Lemma write_file_stdin (path : string) (c : content) (w : @world cell) :
  stdin (snd (write_file E path c w)) = stdin w.
Proof. unfold write_file. now destruct (can_write E path). Qed.

Lemma write_inp_stdin (mode : string) (df : Table) (out dat_abs : string)
  (w : @world cell) :
  stdin (snd ((if String.eqb mode "w" then write_inp_mod E
               else write_inp_med E) df out dat_abs w)) = stdin w.
Proof.
  destruct (String.eqb mode "w"); unfold write_inp_mod, write_inp_med.
  - destruct (firstn 4 (columns df)) as [|? [|? [|? [|? [|? ?]]]]];
      try reflexivity. apply write_file_stdin.
  - destruct (firstn 3 (columns df)) as [|? [|? [|? [|? ?]]]];
      try reflexivity. apply write_file_stdin.
Qed.

Lemma bind_stdin {A B} (m : @M cell A) (k : A -> @M cell B) (w : @world cell) :
  stdin (snd (m w)) = stdin w ->
  (forall a w', stdin (snd (k a w')) = stdin w') ->
  stdin (snd (bind m k w)) = stdin w.
Proof.
  intros Hm Hk. unfold bind. destruct (m w) as [[a|e|] w']; simpl in *;
    try assumption. now rewrite Hk.
Qed.

Lemma convert_emit_stdin (df : Table) (mp : option dict)
  (prefix mode : string) (w : @world cell) :
  stdin (snd (convert_emit E df mp prefix mode w)) = stdin w.
Proof.
  unfold convert_emit, write_dat.
  apply bind_stdin; [apply write_file_stdin|]. intros _ w1.
  apply bind_stdin; [apply write_inp_stdin|]. intros _ w2.
  apply bind_stdin.
  - destruct mp as [[|kv items]|]; try reflexivity.
    apply bind_stdin; [apply write_file_stdin | reflexivity].
  - intros _ w3. reflexivity.
Qed.

(** *** Claims about [convert] *)

(** C7.  When [illegal_names] reports nothing on the ingested table, the
    run is the emission of that very table with no mapping, whatever the
    sanitiser is: the sanitiser is not consulted, the consent question is
    not asked (no answer is read), and the data file and the script are
    produced from the original column identifiers. *)
Theorem convert_legal_names_skip_sanitize
  (sanitize : list string -> option dict) (inp prefix mode : string)
  (w w1 : @world cell) (df : Table) :
  read_data E inp w = (Returned df, w1) ->
  illegal_names (columns df) = [] ->
  convert_with E sanitize inp prefix mode w
  = convert_emit E df None prefix mode w1
  /\ convert E inp prefix mode w = convert_emit E df None prefix mode w1
  /\ stdin (snd (convert E inp prefix mode w)) = stdin w1.
Proof.
  intros Hread Hbad.
  assert (H : forall s, convert_with E s inp prefix mode w
                        = convert_emit E df None prefix mode w1).
  { intros s. unfold convert_with.
    rewrite (bind_returned _ _ _ _ _ Hread). now rewrite Hbad. }
  split; [apply H|]. unfold convert. split; [apply H|].
  rewrite H. apply convert_emit_stdin.
Qed.

(** C9.  When [illegal_names] reports something and the answer to the
    consent question is not [y] or [Y], the run raises the naming error and
    no file has been written. *)
Theorem convert_refusal_writes_nothing (inp prefix mode : string)
  (w w1 : @world cell) (df : Table) (ans : string) (rest : list string) :
  read_data E inp w = (Returned df, w1) ->
  illegal_names (columns df) <> [] ->
  stdin w1 = ans :: rest ->
  lower ans <> "y" ->
  fst (convert E inp prefix mode w) = Raised refusal
  /\ disk (snd (convert E inp prefix mode w)) = disk w.
Proof.
  intros Hread Hbad Hin Hans.
  pose proof (read_data_disk inp w) as Hdisk. rewrite Hread in Hdisk.
  simpl in Hdisk.
  assert (Hrun : exists w2, convert E inp prefix mode w = (Raised refusal, w2)
                            /\ disk w2 = disk w1).
  { unfold convert, convert_with. rewrite (bind_returned _ _ _ _ _ Hread).
    destruct (illegal_names (columns df)) as [|b bad]; [contradiction|].
    erewrite bind_returned by reflexivity.
    erewrite bind_returned by apply for_each_print.
    erewrite bind_returned
      by (unfold input; cbn [stdin stdout disk]; rewrite Hin; reflexivity).
    apply String.eqb_neq in Hans. rewrite Hans. cbn [negb].
    eexists. split; reflexivity. }
  destruct Hrun as (w2 & -> & Hw2). cbn [fst snd]. split; congruence.
Qed.

Lemma bind_returned_inv {A B} (m : @M cell A) (k : A -> @M cell B)
  (w : @world cell) (b : B) :
  fst (bind m k w) = Returned b ->
  exists a w', m w = (Returned a, w') /\ bind m k w = k a w'.
Proof.
  unfold bind. destruct (m w) as [[a|e|] w']; simpl; try discriminate.
  intros _. now exists a, w'.
Qed.

Lemma write_file_returned (path : string) (c : content) (w : @world cell) :
  fst (write_file E path c w) = Returned tt ->
  write_file E path c w
  = (Returned tt,
     mkWorld (stdin w) (stdout w) (disk w ++ [(path, c)])%list).
Proof.
  unfold write_file. destruct (can_write E path); [reflexivity|discriminate].
Qed.

Lemma write_inp_returned (mode : string) (df : Table) (out dat_abs : string)
  (w : @world cell) :
  fst ((if String.eqb mode "w" then write_inp_mod E else write_inp_med E)
         df out dat_abs w) = Returned tt ->
  exists script,
    (if String.eqb mode "w" then write_inp_mod E else write_inp_med E)
      df out dat_abs w
    = (Returned tt,
       mkWorld (stdin w) (stdout w) (disk w ++ [(out, Script script)])%list).
Proof.
  destruct (String.eqb mode "w"); unfold write_inp_mod, write_inp_med.
  - destruct (firstn 4 (columns df)) as [|? [|? [|? [|? [|? ?]]]]];
      try discriminate.
    intros H. eexists. now apply write_file_returned.
  - destruct (firstn 3 (columns df)) as [|? [|? [|? [|? ?]]]];
      try discriminate.
    intros H. eexists. now apply write_file_returned.
Qed.

Lemma mapping_rows_last (path : string) (h : list string)
  (r : list (string * string)) (files : list (string * @content cell)) :
  mapping_rows path (files ++ [(path, MapCsv h r)]) = Some r.
Proof.
  induction files as [|[p c] files IH]; simpl.
  - now rewrite String.eqb_refl.
  - now rewrite IH.
Qed.

(** A completed emission with a mapping leaves the data file, the script and
    the mapping file, in this order, and the mapping file holds the whole
    mapping. *)
Lemma convert_emit_mapping (df : Table) (kv : string * string) (mp : dict)
  (prefix mode : string) (w : @world cell) :
  fst (convert_emit E df (Some (kv :: mp)) prefix mode w) = Returned tt ->
  exists script,
    disk (snd (convert_emit E df (Some (kv :: mp)) prefix mode w))
    = List.app (disk w)
        [ (prefix ++ ".dat", DatOf df);
          (prefix ++ ".inp", Script script);
          (prefix ++ "_variable_map.csv",
           MapCsv ["original"; "mplus"] (kv :: mp)) ].
Proof.
  unfold convert_emit, write_dat. intros H.
  destruct (bind_returned_inv _ _ _ _ H) as ([] & w1 & Hdat & Hk).
  rewrite Hk in *. clear Hk.
  rewrite write_file_returned in Hdat by now rewrite Hdat.
  injection Hdat as <-.
  destruct (bind_returned_inv _ _ _ _ H) as ([] & w2 & Hinp & Hk).
  rewrite Hk in *. clear Hk.
  destruct (write_inp_returned mode df (prefix ++ ".inp")
              (abspath E (prefix ++ ".dat")) _ ltac:(now rewrite Hinp))
    as (script & Hscript).
  rewrite Hscript in Hinp. injection Hinp as <-.
  destruct (bind_returned_inv _ _ _ _ H) as ([] & w3 & Hmap & Hk).
  rewrite Hk in *. clear Hk H.
  assert (Hm : fst (bind (write_file E (prefix ++ "_variable_map.csv")
                            (MapCsv ["original"; "mplus"] (kv :: mp)))
                         (fun _ => print (nl ++ "变量映射表已输出: "
                                           ++ abspath E (prefix ++ "_variable_map.csv")))
                         (mkWorld (stdin w) (stdout w)
                            (List.app
                               (List.app (disk w) [(prefix ++ ".dat", DatOf df)])
                               [(prefix ++ ".inp", Script script)])))
                = Returned tt) by now rewrite Hmap.
  destruct (bind_returned_inv _ _ _ _ Hm) as ([] & w4 & Hfile & Hk).
  rewrite Hk in Hmap. clear Hk Hm.
  rewrite write_file_returned in Hfile by now rewrite Hfile.
  injection Hfile as <-. injection Hmap as <-.
  exists script. cbn. now rewrite <- !app_assoc.
Qed.

Lemma dict_set_nonempty (k v : string) (d : dict) : dict_set k v d <> [].
Proof. destruct d as [|[k' v'] r]; simpl; [|destruct (String.eqb k' k)]; discriminate. Qed.

Lemma sanitize_loop_nonempty (cols : list string) :
  forall mp used counter mp',
  sanitize_loop cols mp used counter = Some mp' -> mp <> [] -> mp' <> [].
Proof.
  induction cols as [|c rest IH]; intros mp used counter mp';
    cbn [sanitize_loop].
  - intros H. now injection H as <-.
  - destruct (retry retry_fuel used counter (candidate counter c));
      [|intros H; discriminate H].
    intros H _. eapply IH; eauto using dict_set_nonempty.
Qed.

Lemma sanitize_names_nonempty (cols : list string) (mp : dict) :
  cols <> [] -> sanitize_names cols = Some mp -> mp <> [].
Proof.
  destruct cols as [|c rest]; [contradiction|]. intros _.
  unfold sanitize_names. cbn [sanitize_loop].
  destruct (retry retry_fuel [] 1 (candidate 1 c));
    [|intros H; discriminate H].
  intros H. eapply sanitize_loop_nonempty; eauto using dict_set_nonempty.
Qed.

(** C1, as the code has it.  When a mapping was produced (an identifier was
    reported, the user consented, [sanitize_names] returned [mp]) and the
    run completes, the mapping file holds every entry of [mp], in order,
    also those of identifiers mapped to themselves; for distinct column
    identifiers that is one row per column. *)
Theorem convert_audit_lists_every_entry (inp prefix mode : string)
  (w w1 : @world cell) (df : Table) (ans : string) (rest : list string)
  (mp : dict) :
  read_data E inp w = (Returned df, w1) ->
  illegal_names (columns df) <> [] ->
  stdin w1 = ans :: rest ->
  lower ans = "y" ->
  sanitize_names (columns df) = Some mp ->
  fst (convert E inp prefix mode w) = Returned tt ->
  (exists script,
     disk (snd (convert E inp prefix mode w))
     = List.app (disk w)
         [ (prefix ++ ".dat", DatOf (rename df mp));
           (prefix ++ ".inp", Script script);
           (prefix ++ "_variable_map.csv",
            MapCsv ["original"; "mplus"] mp) ])
  /\ audit_rows prefix (snd (convert E inp prefix mode w)) = Some mp
  /\ (NoDup (columns df) -> keys mp = columns df).
Proof.
  intros Hread Hbad Hin Hans Hsan Hdone.
  pose proof (read_data_disk inp w) as Hdisk. rewrite Hread in Hdisk.
  simpl in Hdisk.
  assert (Hcols : columns df <> []).
  { intros Hnil. apply Hbad. now rewrite Hnil. }
  pose proof (sanitize_names_nonempty _ _ Hcols Hsan) as Hmp.
  destruct mp as [|kv items]; [contradiction|].
  assert (Hrun : exists w3,
            convert E inp prefix mode w
            = convert_emit E (rename df (kv :: items)) (Some (kv :: items))
                prefix mode w3
            /\ disk w3 = disk w1).
  { unfold convert, convert_with. rewrite (bind_returned _ _ _ _ _ Hread).
    destruct (illegal_names (columns df)) as [|b bad]; [contradiction|].
    erewrite bind_returned by reflexivity.
    erewrite bind_returned by apply for_each_print.
    erewrite bind_returned
      by (unfold input; cbn [stdin stdout disk]; rewrite Hin; reflexivity).
    rewrite Hans. cbn [String.eqb Ascii.eqb Bool.eqb negb]. rewrite Hsan.
    erewrite bind_returned by reflexivity.
    match goal with
    | |- context [bind (for_each ?l ?body) ?k ?w0] =>
        destruct (for_each_keeps body l) with (w := w0) as (F1 & F2 & F3);
        [ intros x w'; destruct (negb _); simpl; auto
        | destruct (for_each l body w0) as [o w3] eqn:Hfor ]
    end.
    simpl in F1, F2, F3. subst o.
    rewrite (bind_returned _ _ _ _ _ Hfor).
    exists w3. split; [reflexivity | exact F3]. }
  destruct Hrun as (w3 & Hrun & Hw3). rewrite Hrun in *.
  destruct (convert_emit_mapping _ _ _ _ _ _ Hdone) as (script & Hfiles).
  rewrite Hw3, Hdisk in Hfiles.
  split; [now exists script|]. split.
  - unfold audit_rows. rewrite Hfiles.
    change [(prefix ++ ".dat", DatOf (rename df (kv :: items)));
            (prefix ++ ".inp", Script script);
            (prefix ++ "_variable_map.csv",
             MapCsv ["original"; "mplus"] (kv :: items))]
      with (List.app
              [(prefix ++ ".dat", DatOf (rename df (kv :: items)));
               (prefix ++ ".inp", Script script)]
              [(prefix ++ "_variable_map.csv",
                MapCsv ["original"; "mplus"] (kv :: items))]).
    rewrite app_assoc. apply mapping_rows_last.
  - intros Hnd. now apply sanitize_names_sound.
Qed.

End PipelineFacts.

(** ** The claims on sample runs *)

Lemma write_inp_med_template_witness :
  columns Sample.xmy = ["X"; "M"; "Y"]
  /\ can_write (Sample.env_of Sample.xmy) "out.inp" = true
  /\ write_inp_med (Sample.env_of Sample.xmy) Sample.xmy "out.inp"
       "/work/out.dat" (Sample.start [])
     = (Returned tt,
        mkWorld [] []
          [("out.inp",
            Script (med_script "X" "M" "Y" ["X"; "M"; "Y"] "/work/out.dat"))]).
Proof.
  split; [reflexivity|]. split; [reflexivity|].
  exact (proj1 (write_inp_med_template (Sample.env_of Sample.xmy) Sample.xmy
                  "out.inp" "/work/out.dat" (Sample.start [])
                  "X" "M" "Y" [] eq_refl eq_refl)).
Defined.

Lemma write_inp_mod_template_witness :
  columns Sample.xmyw = ["X"; "M"; "Y"; "W"]
  /\ can_write (Sample.env_of Sample.xmyw) "out.inp" = true
  /\ occurs ("  USEVARIABLES = X M Y W XW;" ++ nl ++ nl
             ++ "DEFINE:" ++ nl ++ "  XW = X*W;" ++ nl ++ nl)
            (mod_script "X" "M" "Y" "W" ["X"; "M"; "Y"; "W"] "/work/out.dat").
Proof.
  split; [reflexivity|]. split; [reflexivity|].
  exact (proj1 (proj2
           (write_inp_mod_template (Sample.env_of Sample.xmyw) Sample.xmyw
              "out.inp" "/work/out.dat" (Sample.start [])
              "X" "M" "Y" "W" [] eq_refl eq_refl))).
Defined.

Lemma convert_legal_names_skip_sanitize_witness :
  read_data (Sample.env_of Sample.xmy) "data.xlsx" (Sample.start [])
  = (Returned Sample.xmy, Sample.start [])
  /\ illegal_names (columns Sample.xmy) = []
  /\ convert_with (Sample.env_of Sample.xmy) (fun _ => None)
       "data.xlsx" "out" "m" (Sample.start [])
     = convert_emit (Sample.env_of Sample.xmy) Sample.xmy None "out" "m"
         (Sample.start []).
Proof.
  split; [reflexivity|]. split; [reflexivity|].
  exact (proj1 (convert_legal_names_skip_sanitize
                  (Sample.env_of Sample.xmy) (fun _ => None)
                  "data.xlsx" "out" "m" (Sample.start []) (Sample.start [])
                  Sample.xmy eq_refl eq_refl)).
Defined.

Lemma no_is_not_yes : lower "n" <> "y".
Proof. intros H. discriminate H. Defined.

Lemma convert_refusal_writes_nothing_witness :
  read_data (Sample.env_of Sample.survey) "data.xlsx" (Sample.start ["n"])
  = (Returned Sample.survey, Sample.start ["n"])
  /\ illegal_names (columns Sample.survey) <> []
  /\ lower "n" <> "y"
  /\ fst (convert (Sample.env_of Sample.survey) "data.xlsx" "out" "m"
            (Sample.start ["n"])) = Raised refusal
  /\ disk (snd (convert (Sample.env_of Sample.survey) "data.xlsx" "out" "m"
                  (Sample.start ["n"]))) = [].
Proof.
  assert (Hbad : illegal_names (columns Sample.survey) <> []).
  { intros H. discriminate H. }
  split; [reflexivity|]. split; [exact Hbad|]. split; [exact no_is_not_yes|].
  exact (convert_refusal_writes_nothing (Sample.env_of Sample.survey)
           "data.xlsx" "out" "m" (Sample.start ["n"]) (Sample.start ["n"])
           Sample.survey "n" [] eq_refl Hbad eq_refl no_is_not_yes).
Defined.

Lemma convert_audit_lists_every_entry_witness :
  illegal_names (columns Sample.survey) <> []
  /\ lower "Y" = "y"
  /\ sanitize_names (columns Sample.survey) = Some Sample.survey_map
  /\ fst (convert (Sample.env_of Sample.survey) "data.xlsx" "out" "m"
            (Sample.start ["Y"])) = Returned tt
  /\ audit_rows "out"
       (snd (convert (Sample.env_of Sample.survey) "data.xlsx" "out" "m"
               (Sample.start ["Y"]))) = Some Sample.survey_map.
Proof.
  assert (Hbad : illegal_names (columns Sample.survey) <> []).
  { intros H. discriminate H. }
  split; [exact Hbad|]. split; [reflexivity|]. split; [reflexivity|].
  split; [reflexivity|].
  exact (proj1 (proj2
           (convert_audit_lists_every_entry (Sample.env_of Sample.survey)
              "data.xlsx" "out" "m" (Sample.start ["Y"]) (Sample.start ["Y"])
              Sample.survey "Y" [] Sample.survey_map
              eq_refl Hbad eq_refl eq_refl eq_refl eq_refl))).
Defined.

(** A file that only latin1 decodes is read without a question. *)
Example read_csv_latin1_silent :
  read_csv_with_fallback Sample.csv_env "d.csv" (Sample.start [])
  = (Returned (Sample.xmy, "latin1"), Sample.start []).
Proof. reflexivity. Qed.

(** C1, as the claim states it, fails.  On the table with the columns
    [1stVar], [Income(USD)], [Y] and a consenting user, the mapping file
    holds three rows, one of them [Y -> Y], while the changed entries are
    two. *)
Lemma audit_keeps_unchanged_identifier :
  let w' := snd (convert (Sample.env_of Sample.survey) "data.xlsx" "out" "m"
                   (Sample.start ["y"])) in
  sanitize_names (columns Sample.survey) = Some Sample.survey_map
  /\ audit_rows "out" w' = Some Sample.survey_map
  /\ In ("Y", "Y") Sample.survey_map
  /\ changed_entries Sample.survey_map
     = [("1stVar", "v1"); ("Income(USD)", "IncomeUS")]
  /\ audit_rows "out" w' <> Some (changed_entries Sample.survey_map).
Proof.
  cbv zeta. split; [reflexivity|]. split; [reflexivity|].
  split; [simpl; tauto|]. split; [reflexivity|].
  intros H. vm_compute in H. discriminate H.
Qed.

(** * Further properties of the code *)

(** ** The validator *)

Lemma newline_not_word : is_word "010" = false.
Proof. reflexivity. Qed.

Lemma ident_tail_newline (r : string) :
  all_chars is_word r = true -> ident_tail (r ++ nl) = true.
Proof.
  induction r as [|c r IH]; simpl; [reflexivity|].
  intros H. apply andb_true_iff in H as [Hc Hr]. rewrite Hc. auto.
Qed.

Lemma ident_tail_cases (r : string) :
  ident_tail r = true ->
  all_chars is_word r = true
  \/ exists r', r = r' ++ nl /\ all_chars is_word r' = true.
Proof.
  induction r as [|c r IH]; simpl; [now left|].
  destruct (is_word c) eqn:Hc.
  - intros H. destruct (IH H) as [Hr|(r' & -> & Hr')].
    + left. now rewrite Hr.
    + right. exists (String c r'). simpl. now rewrite Hc, Hr'.
  - intros H. apply andb_true_iff in H as [Hn He].
    apply Ascii.eqb_eq in Hn. apply String.eqb_eq in He. subst.
    right. now exists "".
Qed.

(** X1.  [illegal_names] lets a name pass exactly when it satisfies the
    Symbol Grammar, or is a name of the grammar of at most seven characters
    followed by one newline. *)
Theorem is_illegal_false_iff (c : string) :
  is_illegal c = false
  <-> symbol_grammar c = true
      \/ exists s, c = s ++ nl /\ symbol_grammar s = true
                   /\ String.length s <= 7.
Proof.
  split.
  - unfold is_illegal. intros H. apply orb_false_iff in H as [Hm Hl].
    apply negb_false_iff in Hm. apply Nat.ltb_ge in Hl.
    destruct c as [|h r]; [discriminate|]. simpl in Hm.
    apply andb_true_iff in Hm as [Hh Ht].
    destruct (ident_tail_cases r Ht) as [Hr|(r' & -> & Hr')].
    + left. unfold symbol_grammar. rewrite Hh, Hr.
      now apply Nat.leb_le in Hl as ->.
    + right. exists (String h r'). split; [reflexivity|].
      simpl in Hl. rewrite length_app in Hl. simpl in Hl.
      split; [|simpl; lia].
      unfold symbol_grammar. rewrite Hh, Hr'. simpl.
      apply Nat.leb_le. lia.
  - intros [H|(s & -> & H & Hl)]; [now apply grammar_not_illegal|].
    apply symbol_grammar_elim in H as (h & r & -> & Hh & Hr & _).
    unfold is_illegal. simpl. rewrite Hh, ident_tail_newline by assumption.
    simpl. apply Nat.ltb_ge. rewrite length_app. simpl in *. lia.
Qed.

(** ** The sanitiser *)

Lemma underscore_not_letter (r : string) : symbol_grammar (String "_" r) = false.
Proof. reflexivity. Qed.

Lemma underscore_illegal (r : string) : is_illegal (String "_" r) = true.
Proof. reflexivity. Qed.

Lemma well_formed_illegal (v : string) :
  well_formed v = true ->
  is_illegal v = starts_with_underscore v.
Proof.
  intros H. destruct (well_formed_grammar v H) as [Hg|(r & ->)].
  - rewrite grammar_not_illegal by assumption.
    apply symbol_grammar_elim in Hg as (h & r & -> & Hh & _).
    simpl. destruct (Ascii.eqb h "_") eqn:He; [|reflexivity].
    apply Ascii.eqb_eq in He. now subst.
  - reflexivity.
Qed.

(** X2.  For every input, pairwise distinct or not, a run of
    [sanitize_names] that returns gives pairwise distinct generated names,
    each of them non-empty, not starting with a digit, made of letters,
    digits and underscore, and of at most 8 characters. *)
Theorem sanitize_names_values_distinct (cols : list string) (mp : dict) :
  sanitize_names cols = Some mp ->
  NoDup (values mp)
  /\ Forall (fun v => needs_placeholder v = false
                      /\ all_chars is_word v = true
                      /\ String.length v <= 8) (values mp).
Proof.
  unfold sanitize_names. intros H.
  apply sanitize_loop_invariant in H; simpl; auto using incl_refl.
  - destruct H as [Hnd Hwf]. split; [assumption|].
    eapply Forall_impl; [|exact Hwf]. intros v. apply well_formed_elim.
  - constructor.
Qed.

Lemma sanitize_names_values_distinct_witness :
  sanitize_names ["a"; "a"; "a!"] = Some [("a", "a2"); ("a!", "a3")]
  /\ NoDup (values [("a", "a2"); ("a!", "a3")]).
Proof.
  split; [reflexivity|].
  exact (proj1 (sanitize_names_values_distinct ["a"; "a"; "a!"]
                  [("a", "a2"); ("a!", "a3")] eq_refl)).
Defined.

(** X3.  A generated name is reported by [illegal_names] exactly when it
    starts with an underscore: re-validating the result of a run finds the
    names with a leading underscore and nothing else. *)
Theorem sanitized_name_illegal_iff_underscore (cols : list string) (mp : dict) :
  sanitize_names cols = Some mp ->
  illegal_names (values mp) = filter starts_with_underscore (values mp).
Proof.
  unfold sanitize_names. intros H.
  apply sanitize_loop_invariant in H; simpl; auto using incl_refl;
    [|constructor].
  destruct H as [_ Hwf]. unfold illegal_names.
  induction Hwf as [|v vs Hv _ IH]; [reflexivity|].
  simpl. now rewrite well_formed_illegal, IH.
Qed.

Lemma sanitized_name_illegal_iff_underscore_witness :
  sanitize_names ["_a"; "1b"; "c d"]
  = Some [("_a", "_a"); ("1b", "v2"); ("c d", "cd")]
  /\ illegal_names ["_a"; "v2"; "cd"] = ["_a"].
Proof.
  split; [reflexivity|].
  exact (sanitized_name_illegal_iff_underscore ["_a"; "1b"; "c d"]
           [("_a", "_a"); ("1b", "v2"); ("c d", "cd")] eq_refl).
Defined.

Lemma dict_get_in_keys (d : dict) (c : string) :
  In c (keys d) -> exists v, dict_get d c = Some v /\ In v (values d).
Proof.
  induction d as [|[k v] r IH]; simpl; [intros []|].
  destruct (String.eqb k c) eqn:He.
  - intros _. exists v. split; [reflexivity | now left].
  - intros [Hk|Hin]; [apply String.eqb_neq in He; contradiction|].
    destruct (IH Hin) as (v' & Hg & Hv). exists v'. split; [assumption|].
    now right.
Qed.

(** X4.  On pairwise distinct column identifiers a run that returns gives
    a mapping with exactly one entry per column, in column order, so every
    column can be looked up and the mapping is as long as the list. *)
Theorem sanitize_names_covers_columns (cols : list string) (mp : dict) :
  NoDup cols -> sanitize_names cols = Some mp ->
  keys mp = cols
  /\ List.length mp = List.length cols
  /\ forall c, In c cols ->
       exists v, dict_get mp c = Some v /\ In v (values mp).
Proof.
  intros Hnd H.
  assert (Hk : keys mp = cols).
  { unfold sanitize_names in H. now apply sanitize_loop_keys in H. }
  split; [exact Hk|]. split.
  - rewrite <- Hk. unfold keys. now rewrite length_map.
  - intros c Hc. apply dict_get_in_keys. now rewrite Hk.
Qed.

Lemma sanitize_names_covers_columns_witness :
  NoDup ["1stVar"; "Income(USD)"; "Y"]
  /\ sanitize_names ["1stVar"; "Income(USD)"; "Y"] = Some Sample.survey_map
  /\ keys Sample.survey_map = ["1stVar"; "Income(USD)"; "Y"].
Proof.
  assert (Hnd : NoDup ["1stVar"; "Income(USD)"; "Y"]).
  { repeat constructor; simpl; intuition discriminate. }
  split; [exact Hnd|]. split; [reflexivity|].
  exact (proj1 (sanitize_names_covers_columns
                  ["1stVar"; "Income(USD)"; "Y"] Sample.survey_map
                  Hnd eq_refl)).
Defined.

Lemma sanitize_loop_no_clash (cols : list string) :
  forall mp used counter,
  NoDup cols -> (forall c, In c cols -> ~ In c (keys mp)) ->
  NoDup (candidates counter cols) ->
  (forall n, In n (candidates counter cols) -> ~ In n used) ->
  sanitize_loop cols mp used counter
  = Some (mp ++ combine cols (candidates counter cols))%list.
Proof.
  induction cols as [|c rest IH]; intros mp used counter Hnd Hk Hcand Hu;
    cbn [sanitize_loop candidates combine].
  - now rewrite app_nil_r.
  - inversion Hnd as [|? ? Hc Hrest]; subst.
    cbn [candidates] in Hcand, Hu.
    inversion Hcand as [|? ? Hn Hns]; subst.
    rewrite retry_fresh by (apply mem_false, Hu; now left).
    rewrite dict_set_new by (apply Hk; now left).
    rewrite IH; auto.
    + now rewrite <- app_assoc.
    + intros x Hx Hin. unfold keys in Hin. rewrite map_app in Hin.
      apply in_app_or in Hin as [Hin|[<-|[]]]; [|contradiction].
      apply (Hk x); [now right | assumption].
    + intros n Hin [<-|Hused]; [contradiction|].
      apply (Hu n); [now right | assumption].
Qed.

(** X5.  When the columns are pairwise distinct and so are their candidate
    names (the stripped name, or [v] and the column's position when nothing
    usable is left, cut to 8 characters), the run returns, no name is
    perturbed, and each column is mapped to its candidate. *)
Theorem sanitize_names_no_clash (cols : list string) :
  NoDup cols -> NoDup (candidates 1 cols) ->
  sanitize_names cols = Some (combine cols (candidates 1 cols)).
Proof.
  intros Hnd Hc. unfold sanitize_names.
  rewrite sanitize_loop_no_clash; auto.
Qed.

Lemma sanitize_names_no_clash_witness :
  NoDup (columns SampleMore.cohort)
  /\ candidates 1 (columns SampleMore.cohort) = ["v1"; "v2"; "Y"]
  /\ sanitize_names (columns SampleMore.cohort)
     = Some [("年龄", "v1"); ("收入", "v2"); ("Y", "Y")].
Proof.
  assert (Hnd : NoDup (columns SampleMore.cohort)).
  { repeat constructor; simpl; intuition discriminate. }
  assert (Hc : NoDup (candidates 1 (columns SampleMore.cohort))).
  { repeat constructor; simpl; intuition discriminate. }
  split; [exact Hnd|]. split; [reflexivity|].
  exact (sanitize_names_no_clash (columns SampleMore.cohort) Hnd Hc).
Defined.

Lemma digit_not_underscore (h : ascii) :
  is_digit h = true -> Ascii.eqb h "_" = false.
Proof. destruct h as [[] [] [] [] [] [] [] []]; vm_compute; congruence. Qed.

Lemma candidate_underscore (counter : nat) (c : string) :
  starts_with_underscore (candidate counter c)
  = starts_with_underscore (re_sub_nonword c).
Proof.
  unfold candidate. destruct (re_sub_nonword c) as [|h r] eqn:Hs.
  - reflexivity.
  - simpl needs_placeholder. destruct (is_digit h) eqn:Hd.
    + simpl. now rewrite digit_not_underscore.
    + reflexivity.
Qed.

Lemma perturb_underscore (counter : nat) (n : string) :
  needs_placeholder n = false ->
  starts_with_underscore (perturb counter n) = starts_with_underscore n.
Proof. destruct n; [discriminate | reflexivity]. Qed.

Lemma while_exit_underscore (used : list string) (counter : nat)
  (n n' : string) :
  while_exit used counter n n' -> well_formed n = true ->
  starts_with_underscore n' = starts_with_underscore n.
Proof.
  induction 1 as [|n n' Hm H IH]; [reflexivity|]. intros Hwf.
  rewrite IH by now apply perturb_well_formed.
  apply perturb_underscore. now apply well_formed_elim in Hwf.
Qed.

Lemma sanitize_loop_underscore (cols : list string) :
  forall mp used counter mp',
  sanitize_loop cols mp used counter = Some mp' ->
  (forall c, In c cols -> starts_with_underscore (re_sub_nonword c) = false) ->
  Forall (fun v => starts_with_underscore v = false) (values mp) ->
  Forall (fun v => starts_with_underscore v = false) (values mp').
Proof.
  induction cols as [|c rest IH]; intros mp used counter mp';
    cbn [sanitize_loop].
  - intros H. now injection H as <-.
  - destruct (retry retry_fuel used counter (candidate counter c))
      as [n|] eqn:Hr; [|intros H; discriminate H].
    apply retry_sound in Hr. intros H Hcols Hmp.
    apply IH in H; auto.
    + intros x Hx. apply Hcols. now right.
    + apply Forall_values_dict_set; auto.
      rewrite (while_exit_underscore _ _ _ _ Hr (candidate_well_formed _ _)).
      rewrite candidate_underscore. apply Hcols. now left.
Qed.

(** X6.  When no column, once stripped of the characters outside
    [[A-Za-z0-9_]], starts with an underscore, every name of a mapping that
    [sanitize_names] returns satisfies the Symbol Grammar, and
    [illegal_names] reports none of them. *)
Theorem sanitize_names_repairs (cols : list string) (mp : dict) :
  (forall c, In c cols -> starts_with_underscore (re_sub_nonword c) = false) ->
  sanitize_names cols = Some mp ->
  Forall (fun v => symbol_grammar v = true) (values mp)
  /\ illegal_names (values mp) = [].
Proof.
  intros Hcols H.
  assert (Hg : Forall (fun v => symbol_grammar v = true) (values mp)).
  { unfold sanitize_names in H.
    pose proof (sanitize_loop_underscore _ _ _ _ _ H Hcols
                  (Forall_nil _)) as Hu.
    apply sanitize_loop_invariant in H; simpl; auto using incl_refl;
      [|constructor].
    destruct H as [_ Hwf]. rewrite Forall_forall in *.
    intros v Hv. destruct (well_formed_grammar v (Hwf v Hv))
      as [Hgv|(r & ->)]; [assumption|].
    specialize (Hu _ Hv). discriminate Hu. }
  split; [exact Hg | now apply illegal_names_grammar].
Qed.

Lemma sanitize_names_repairs_witness :
  (forall c, In c ["1stVar"; "Income(USD)"; "Y"] ->
             starts_with_underscore (re_sub_nonword c) = false)
  /\ sanitize_names ["1stVar"; "Income(USD)"; "Y"] = Some Sample.survey_map
  /\ illegal_names (values Sample.survey_map) = [].
Proof.
  assert (Hc : forall c, In c ["1stVar"; "Income(USD)"; "Y"] ->
                         starts_with_underscore (re_sub_nonword c) = false).
  { intros c [<-|[<-|[<-|[]]]]; reflexivity. }
  split; [exact Hc|]. split; [reflexivity|].
  exact (proj2 (sanitize_names_repairs ["1stVar"; "Income(USD)"; "Y"]
                  Sample.survey_map Hc eq_refl)).
Defined.

(** ** The retry loop, in detail *)

Lemma retry_none_iff (used : list string) (counter : nat) (fuel : nat) :
  forall n,
  retry fuel used counter n = None
  <-> forall i, i <= fuel -> In (after counter i n) used.
Proof.
  induction fuel as [|f IH]; intros n; cbn [retry].
  - destruct (mem n used) eqn:Hm.
    + split; [|reflexivity]. intros _ i Hi.
      replace i with 0 by lia. now apply mem_true.
    + split; [discriminate|]. intros H. apply mem_false in Hm.
      exfalso. apply Hm. apply (H 0). lia.
  - destruct (mem n used) eqn:Hm.
    + rewrite IH. split.
      * intros H [|i] Hi; [now apply mem_true|]. apply (H i). lia.
      * intros H i Hi. apply (H (S i)). lia.
    + split; [discriminate|]. intros H. apply mem_false in Hm.
      exfalso. apply Hm. apply (H 0). lia.
Qed.

(** X7.  The retry loop never exits exactly when the candidate and the
    names after each of the first eight executions of the body are all
    taken.  The eighth of them has 8 characters and is rebuilt unchanged by
    the body, which is why further executions cannot help. *)
Theorem retry_loop_hangs_iff (used : list string) (counter : nat)
  (n : string) :
  ((forall n', ~ while_exit used counter n n')
   <-> (forall i, i <= 8 -> In (after counter i n) used))
  /\ String.length (after counter 8 n) = 8
  /\ perturb counter (after counter 8 n) = after counter 8 n.
Proof.
  split; [|split].
  - rewrite <- (retry_none_iff used counter 8 n). split.
    + intros H. destruct (retry 8 used counter n) as [n'|] eqn:Hr;
        [|reflexivity].
      exfalso. apply (H n'). now apply retry_sound in Hr.
    + intros H n' Hw. apply retry_complete in Hw.
      unfold retry_fuel in Hw. congruence.
  - rewrite after_succ, perturb_length.
    pose proof (after_length counter 7 n). lia.
  - apply (after_fuel_stable counter n).
Qed.

Lemma take_app (k : nat) : forall a b,
  take k (a ++ b) = take k a ++ take (k - String.length a) b.
Proof.
  induction k as [|k IH]; intros [|c a] b; simpl; try reflexivity;
    try (now destruct b).
  now rewrite IH.
Qed.

Lemma take_perturb (counter : nat) (n : string) :
  take 7 (perturb counter n)
  = if Nat.ltb (String.length n) 7
    then take 7 n ++ str_nat (counter mod 10)
    else take 7 n.
Proof.
  unfold perturb. rewrite take_app, length_take.
  rewrite (take_all 7 (take 7 n)) by (rewrite length_take; lia).
  destruct (Nat.ltb (String.length n) 7) eqn:Hl.
  - apply Nat.ltb_lt in Hl. f_equal. apply take_all.
    rewrite digit_length. lia.
  - apply Nat.ltb_ge in Hl.
    replace (7 - Nat.min 7 (String.length n)) with 0 by lia.
    simpl take at 2. apply append_nil_r.
Qed.

(** X8.  The name the retry loop settles on is the candidate itself, or the
    candidate's first seven characters followed by one or more copies of
    the digit [counter % 10]: collision handling never touches the first
    seven characters. *)
Theorem while_exit_shape (used : list string) (counter : nat)
  (n n' : string) :
  while_exit used counter n n' ->
  n' = n
  \/ exists j, 1 <= j
       /\ n' = take 7 n ++ repeat_string (str_nat (counter mod 10)) j.
Proof.
  induction 1 as [n Hn | n n' Hm H IH]; [now left|]. right.
  destruct IH as [->|(j & Hj & ->)].
  - exists 1. split; [lia|]. unfold perturb. simpl repeat_string.
    now rewrite append_nil_r.
  - rewrite take_perturb. destruct (Nat.ltb (String.length n) 7).
    + exists (S j). split; [lia|]. simpl repeat_string.
      now rewrite append_assoc.
    + exists j. now split.
Qed.

Lemma while_exit_shape_witness :
  while_exit ["a"; "a3"] 3 "a" "a33"
  /\ "a33" = take 7 "a" ++ repeat_string (str_nat (3 mod 10)) 2.
Proof.
  assert (H : while_exit ["a"; "a3"] 3 "a" "a33").
  { apply WhileStep; [reflexivity|]. apply WhileStep; [reflexivity|].
    apply WhileDone. reflexivity. }
  split; [exact H|].
  destruct (while_exit_shape ["a"; "a3"] 3 "a" "a33" H) as [E|_];
    [discriminate E | reflexivity].
Defined.

(** ** The name listing *)

Lemma firstn_plus {A} (a b : nat) : forall l : list A,
  firstn (a + b) l = (firstn a l ++ firstn b (skipn a l))%list.
Proof.
  induction a as [|a IH]; intros [|x l]; simpl; try reflexivity.
  - now rewrite firstn_nil.
  - now rewrite IH.
Qed.

Lemma groups_flatten (names : list string) (m : nat) :
  List.concat (map (fun k => slice names (k * 5) (k * 5 + 5)) (seq 0 m))
  = firstn (m * 5) names.
Proof.
  induction m as [|m IH]; [reflexivity|].
  rewrite seq_S, map_app, List.concat_app, IH. cbn [map List.concat].
  rewrite app_nil_r. unfold slice. cbn [Nat.add].
  replace (m * 5 + 5 - m * 5) with 5 by lia.
  replace (S m * 5) with (m * 5 + 5) by lia.
  now rewrite firstn_plus.
Qed.

Lemma name_groups_seq (names : list string) :
  name_groups names
  = map (fun k => slice names (k * 5) (k * 5 + 5))
        (seq 0 ((List.length names + 4) / 5)).
Proof.
  unfold name_groups, range_step. rewrite map_map.
  now replace (List.length names + 5 - 1) with (List.length names + 4) by lia.
Qed.

Lemma ceil5_bounds (n : nat) :
  n <= (n + 4) / 5 * 5 /\ forall k, k < (n + 4) / 5 -> k * 5 < n.
Proof.
  pose proof (Nat.div_mod_eq (n + 4) 5) as H.
  pose proof (Nat.mod_upper_bound (n + 4) 5) as Hm.
  split; [lia|]. intros k Hk. lia.
Qed.

Lemma slice_length (names : list string) (k : nat) :
  List.length (slice names (k * 5) (k * 5 + 5))
  = Nat.min 5 (List.length names - k * 5).
Proof.
  unfold slice. replace (k * 5 + 5 - k * 5) with 5 by lia.
  now rewrite length_firstn, length_skipn.
Qed.

(** X9.  [fmt_names] lays the names out in lines of five: the text is the
    groups, each indented by four spaces and joined by single spaces, one
    per line; the groups taken together are the names, each once and in
    order; there are ceil(n/5) of them, none is empty, and all but the last
    hold exactly five names. *)
Theorem fmt_names_layout (names : list string) :
  fmt_names names
  = join nl (map (fun g => "    " ++ join " " g) (name_groups names))
  /\ List.concat (name_groups names) = names
  /\ List.length (name_groups names) = (List.length names + 4) / 5
  /\ Forall (fun g => 1 <= List.length g <= 5) (name_groups names)
  /\ forall k, S k < List.length (name_groups names) ->
       List.length (nth k (name_groups names) []) = 5.
Proof.
  pose proof (ceil5_bounds (List.length names)) as [Hup Hlow].
  assert (Hlen : List.length (name_groups names)
                 = (List.length names + 4) / 5).
  { now rewrite name_groups_seq, length_map, length_seq. }
  split; [|split; [|split; [|split]]].
  - unfold fmt_names, name_groups. now rewrite !map_map.
  - rewrite name_groups_seq, groups_flatten. now apply firstn_all2.
  - exact Hlen.
  - rewrite name_groups_seq. apply Forall_forall. intros g Hg.
    apply in_map_iff in Hg as (k & <- & Hk). apply in_seq in Hk.
    rewrite slice_length. specialize (Hlow k ltac:(lia)). lia.
  - intros k Hk. rewrite Hlen in Hk. rewrite name_groups_seq.
    set (f := fun k => slice names (k * 5) (k * 5 + 5)).
    rewrite nth_indep with (d' := f 0)
      by (rewrite length_map, length_seq; lia).
    rewrite (map_nth f), seq_nth by lia. cbn [Nat.add]. unfold f.
    rewrite slice_length. specialize (Hlow (S k) Hk). lia.
Qed.

(** X10.  Up to five names go on a single line: the indent, then the names
    separated by single spaces, with no newline. *)
Theorem fmt_names_one_line (names : list string) :
  1 <= List.length names <= 5 ->
  fmt_names names = "    " ++ join " " names.
Proof.
  destruct names as [|a [|b [|c [|d [|e [|f r]]]]]]; simpl List.length;
    intros H; try lia; reflexivity.
Qed.

Lemma fmt_names_one_line_witness :
  1 <= List.length ["X"; "M"; "Y"] <= 5
  /\ fmt_names ["X"; "M"; "Y"] = "    X M Y".
Proof.
  assert (H : 1 <= List.length ["X"; "M"; "Y"] <= 5) by (simpl; lia).
  split; [exact H|].
  exact (fmt_names_one_line ["X"; "M"; "Y"] H).
Defined.

(** ** The templates, further *)

Section TemplateFacts.

Context {cell : Type} (E : @environment cell).

(** X11.  On a table with fewer than three columns [write_inp_med] fails
    at the unpacking of line 49 with Python's [ValueError], before the
    script is opened: nothing is written and the world is unchanged. *)
Theorem write_inp_med_too_few (df : Table) (out dat_abs : string)
  (w : @world cell) :
  List.length (columns df) < 3 ->
  write_inp_med E df out dat_abs w
  = (Raised (unpack_error 3 (List.length (columns df))), w).
Proof.
  unfold write_inp_med.
  destruct (columns df) as [|a [|b [|c r]]]; simpl; intros H;
    try reflexivity; lia.
Qed.

(** X12.  On a table with fewer than four columns [write_inp_mod] fails at
    the unpacking of line 61 with Python's [ValueError], before the script
    is opened: nothing is written and the world is unchanged. *)
Theorem write_inp_mod_too_few (df : Table) (out dat_abs : string)
  (w : @world cell) :
  List.length (columns df) < 4 ->
  write_inp_mod E df out dat_abs w
  = (Raised (unpack_error 4 (List.length (columns df))), w).
Proof.
  unfold write_inp_mod.
  destruct (columns df) as [|a [|b [|c [|d r]]]]; simpl; intros H;
    try reflexivity; lia.
Qed.

End TemplateFacts.

Lemma write_inp_med_too_few_witness :
  List.length (columns SampleMore.two_columns) < 3
  /\ write_inp_med (Sample.env_of SampleMore.two_columns)
       SampleMore.two_columns "out.inp" "/work/out.dat" (Sample.start [])
     = (Raised (ValueError "not enough values to unpack (expected 3, got 2)"),
        Sample.start []).
Proof.
  assert (H : List.length (columns SampleMore.two_columns) < 3)
    by (simpl; lia).
  split; [exact H|].
  exact (write_inp_med_too_few (Sample.env_of SampleMore.two_columns)
           SampleMore.two_columns "out.inp" "/work/out.dat"
           (Sample.start []) H).
Defined.

Lemma write_inp_mod_too_few_witness :
  List.length (columns Sample.xmy) < 4
  /\ write_inp_mod (Sample.env_of Sample.xmy) Sample.xmy "out.inp"
       "/work/out.dat" (Sample.start [])
     = (Raised (ValueError "not enough values to unpack (expected 4, got 3)"),
        Sample.start []).
Proof.
  assert (H : List.length (columns Sample.xmy) < 4) by (simpl; lia).
  split; [exact H|].
  exact (write_inp_mod_too_few (Sample.env_of Sample.xmy) Sample.xmy
           "out.inp" "/work/out.dat" (Sample.start []) H).
Defined.

(** X13.  Both scripts declare the data file by the path they are given and
    list every column of the table, laid out by [fmt_names] and closed by a
    semicolon, right after the title. *)
Theorem scripts_declare_file_and_names (X M Y W : string)
  (names : list string) (dat_abs : string) :
  let section :=
    "DATA:" ++ nl ++ "  FILE = " ++ dat_abs ++ ";" ++ nl ++ nl
    ++ "VARIABLE:" ++ nl ++ "  NAMES =" ++ nl
    ++ fmt_names names ++ ";" ++ nl ++ nl in
  (exists rest,
     med_script X M Y names dat_abs
     = "TITLE: Simple mediation model (X M Y);" ++ nl ++ nl ++ section
       ++ rest)
  /\ (exists rest,
       mod_script X M Y W names dat_abs
       = "TITLE: Moderated mediation model;" ++ nl ++ nl ++ section
         ++ rest).
Proof.
  cbv zeta. split.
  - exists (String.concat "" (skipn 6 (med_writes X M Y names dat_abs))).
    unfold med_script.
    rewrite <- (firstn_skipn 6 (med_writes X M Y names dat_abs)) at 1.
    rewrite concat_app. cbv delta [nl med_writes].
    cbn [firstn skipn String.concat].
    repeat (progress (repeat rewrite append_assoc; cbn [append])).
    reflexivity.
  - exists (String.concat "" (skipn 6 (mod_writes X M Y W names dat_abs))).
    unfold mod_script.
    rewrite <- (firstn_skipn 6 (mod_writes X M Y W names dat_abs)) at 1.
    rewrite concat_app. cbv delta [nl mod_writes].
    cbn [firstn skipn String.concat].
    repeat (progress (repeat rewrite append_assoc; cbn [append])).
    reflexivity.
Qed.

(** X14.  The two scripts share their estimator, resampling and output
    directives: both contain the same ANALYSIS section (MLR, 5000 bootstrap
    draws) and both end with the same OUTPUT section. *)
Theorem scripts_share_directives (X M Y W : string) (names : list string)
  (dat_abs : string) :
  let analysis :=
    "ANALYSIS:" ++ nl ++ "  ESTIMATOR = MLR;" ++ nl
    ++ "  BOOTSTRAP = 5000;" ++ nl ++ nl in
  let output :=
    "OUTPUT:" ++ nl ++ "  STANDARDIZED CINTERVAL(BOOTSTRAP);" ++ nl in
  occurs analysis (med_script X M Y names dat_abs)
  /\ occurs analysis (mod_script X M Y W names dat_abs)
  /\ (exists before, med_script X M Y names dat_abs = before ++ output)
  /\ (exists before, mod_script X M Y W names dat_abs = before ++ output).
Proof.
  cbv zeta. split; [|split; [|split]].
  - unfold med_script. piece (med_writes X M Y names dat_abs) 7 8.
  - unfold mod_script. piece (mod_writes X M Y W names dat_abs) 9 10.
  - exists (String.concat "" (firstn 13 (med_writes X M Y names dat_abs))).
    unfold med_script.
    rewrite <- (firstn_skipn 13 (med_writes X M Y names dat_abs)) at 1.
    now rewrite concat_app.
  - exists (String.concat "" (firstn 14 (mod_writes X M Y W names dat_abs))).
    unfold mod_script.
    rewrite <- (firstn_skipn 14 (mod_writes X M Y W names dat_abs)) at 1.
    now rewrite concat_app.
Qed.

(** ** Answers, ingestion and the command line *)

(** X15.  A question of the program is answered with yes exactly by [y]
    and [Y]: every other answer, [yes] and the empty answer included, is a
    refusal. *)
Theorem consent_iff (ans : string) :
  lower ans = "y" <-> ans = "y" \/ ans = "Y".
Proof.
  split.
  - destruct ans as [|c [|c' r]]; simpl; intros H; try discriminate H.
    injection H as H.
    destruct c as [[] [] [] [] [] [] [] []]; vm_compute in H;
      try discriminate H; auto.
  - intros [->| ->]; reflexivity.
Qed.

(** X16.  [normalize_argv] can only replace the program name: the
    arguments after it, which are all that [main] parses, and their number
    stay as they are. *)
Theorem normalize_argv_keeps_arguments (isfile : string -> bool)
  (argv : list string) :
  tl (normalize_argv isfile argv) = tl argv
  /\ List.length (normalize_argv isfile argv) = List.length argv.
Proof.
  destruct argv as [|a0 [|a1 [|a2 r]]]; try (split; reflexivity).
  unfold normalize_argv. destruct (isfile a1); split; reflexivity.
Qed.

Section IngestionFacts.

Context {cell : Type} (E : @environment cell).

Lemma read_csv_world (p : string) (w : @world cell) :
  snd (read_csv_with_fallback E p w) = w.
Proof.
  destruct (try_encodings_first E p w encodings)
    as (pre & e & post & _ & _ & _ & Hrun).
  { exists "latin1". split; [|intros msg; apply pd_read_csv_latin1].
    unfold encodings. simpl. tauto. }
  unfold read_csv_with_fallback, bind. rewrite Hrun.
  destruct (pd_read_csv E p e); reflexivity.
Qed.

(** X17.  Ingestion is silent: whatever the path and the file, [read_data]
    prints nothing, reads no answer and writes no file; it only returns a
    table or raises. *)
Theorem read_data_silent (p : string) (w : @world cell) :
  snd (read_data E p w) = w.
Proof.
  unfold read_data.
  destruct (String.eqb (lower (snd (splitext E p))) ".csv").
  - unfold bind. pose proof (read_csv_world p w) as H.
    destruct (read_csv_with_fallback E p w) as [[r|e|] w']; simpl in *;
      now subst.
  - destruct (String.eqb _ ".xlsx" || String.eqb _ ".xls");
      [now rewrite lift_world|].
    destruct (String.eqb _ ".sav"); [now rewrite lift_world | reflexivity].
Qed.

(** X18.  A path whose extension is made of ASCII characters and,
    lowercased, is none of [.csv], [.xlsx], [.xls], [.sav] is rejected with
    a [ValueError] that names the lowercased extension, and no reader is
    called. *)
Theorem read_data_unsupported (p : string) (w : @world cell) :
  all_chars is_ascii (snd (splitext E p)) = true ->
  let ext := lower (snd (splitext E p)) in
  ext <> ".csv" -> ext <> ".xlsx" -> ext <> ".xls" -> ext <> ".sav" ->
  read_data E p w = (Raised (ValueError ("不支持的文件格式: " ++ ext)), w).
Proof.
  intros _ ext H1 H2 H3 H4. unfold read_data. fold ext.
  apply String.eqb_neq in H1, H2, H3, H4.
  now rewrite H1, H2, H3, H4.
Qed.

End IngestionFacts.

Lemma read_data_unsupported_witness :
  all_chars is_ascii (snd (splitext SampleMore.txt_env "notes.TXT")) = true
  /\ lower (snd (splitext SampleMore.txt_env "notes.TXT")) = ".txt"
  /\ read_data SampleMore.txt_env "notes.TXT" (Sample.start [])
     = (Raised (ValueError "不支持的文件格式: .txt"), Sample.start []).
Proof.
  split; [reflexivity|]. split; [reflexivity|].
  refine (read_data_unsupported SampleMore.txt_env "notes.TXT"
            (Sample.start []) eq_refl _ _ _ _);
    intros H; discriminate H.
Defined.

(** ** The orchestration, further *)

Lemma dict_get_keys (d : dict) :
  NoDup (keys d) ->
  map (fun c => match dict_get d c with Some v => v | None => c end) (keys d)
  = values d.
Proof.
  induction d as [|[k v] r IH]; [reflexivity|].
  unfold keys, values in *. cbn [map fst snd dict_get]. intros Hnd.
  inversion Hnd as [|? ? Hk Hr]; subst. rewrite String.eqb_refl. f_equal.
  rewrite <- IH by assumption. apply map_ext_in. intros c Hc.
  destruct (String.eqb k c) eqn:He; [|reflexivity].
  apply String.eqb_eq in He. subst. contradiction.
Qed.

Section ConvertFacts.

Context {cell : Type} (E : @environment cell).

(** X19.  After consent the table is renamed to the generated names: for
    pairwise distinct columns the renamed table's columns are the values of
    the mapping in column order, they are again pairwise distinct, and the
    rows are untouched. *)
Theorem rename_uses_generated_names (df : @Table cell) (mp : dict) :
  NoDup (columns df) -> sanitize_names (columns df) = Some mp ->
  columns (rename df mp) = values mp
  /\ NoDup (columns (rename df mp))
  /\ rows (rename df mp) = rows df.
Proof.
  intros Hnd H. unfold sanitize_names in H.
  pose proof (sanitize_loop_keys _ _ _ _ _ H Hnd) as Hk. simpl in Hk.
  apply sanitize_loop_invariant in H; simpl; auto using incl_refl;
    [|constructor].
  destruct H as [Hv _].
  assert (Hc : columns (rename df mp) = values mp).
  { cbn [rename columns]. rewrite <- Hk. apply dict_get_keys.
    now rewrite Hk. }
  rewrite <- Hc in Hv. auto.
Qed.

Lemma for_each_mapping (mp : dict) : forall w : @world cell,
  for_each mp
    (fun kv => if negb (String.eqb (fst kv) (snd kv))
               then print ("  " ++ fst kv ++ " → " ++ snd kv)
               else ret tt) w
  = (Returned tt,
     mkWorld (stdin w)
       (stdout w ++ map mapping_line (changed_entries mp))%list (disk w)).
Proof.
  induction mp as [|kv mp IH]; intros w; cbn [for_each].
  - unfold ret. simpl. rewrite app_nil_r. now destruct w.
  - unfold bind. cbn [changed_entries filter].
    destruct (negb (String.eqb (fst kv) (snd kv))).
    + unfold print at 1. rewrite IH. cbn [stdin stdout disk map].
      fold (mapping_line kv). now rewrite <- app_assoc.
    + unfold ret at 1. now rewrite IH.
Qed.

(** The naming step of a consenting run, with the console as it leaves
    it. *)
Lemma convert_consent_run (sanitize : list string -> option dict)
  (inp prefix mode : string) (w w1 : @world cell) (df : Table)
  (ans : string) (rest : list string) :
  read_data E inp w = (Returned df, w1) ->
  illegal_names (columns df) <> [] ->
  stdin w1 = ans :: rest ->
  lower ans = "y" ->
  convert_with E sanitize inp prefix mode w
  = match sanitize (columns df) with
    | None =>
        (Diverged,
         mkWorld rest
           (List.app (stdout w1)
              ((nl ++ "检测到 Mplus 非法变量名：")
               :: List.app (map illegal_line (illegal_names (columns df)))
                    [consent_prompt]))
           (disk w1))
    | Some mp =>
        convert_emit E (rename df mp) (Some mp) prefix mode
          (mkWorld rest
             (List.app (stdout w1)
                ((nl ++ "检测到 Mplus 非法变量名：")
                 :: List.app (map illegal_line (illegal_names (columns df)))
                      (consent_prompt
                       :: (nl ++ "变量名映射：")
                       :: map mapping_line (changed_entries mp))))
             (disk w1))
    end.
Proof.
  intros Hread Hbad Hin Hans.
  unfold convert_with. rewrite (bind_returned _ _ _ _ _ Hread).
  destruct (illegal_names (columns df)) as [|b bad] eqn:Hb;
    [contradiction|].
  erewrite bind_returned by reflexivity.
  erewrite bind_returned by apply for_each_print.
  erewrite bind_returned
    by (unfold input; cbn [stdin stdout disk]; rewrite Hin; reflexivity).
  rewrite Hans. cbn [String.eqb Ascii.eqb Bool.eqb negb].
  destruct (sanitize (columns df)) as [mp|].
  - erewrite bind_returned by reflexivity.
    erewrite bind_returned by apply for_each_mapping.
    cbn [stdin stdout disk]. f_equal. f_equal.
    change (fun v : string => "  - " ++ v) with illegal_line.
    repeat rewrite <- app_assoc. reflexivity.
  - unfold diverge. f_equal. f_equal.
    change (fun v : string => "  - " ++ v) with illegal_line.
    repeat rewrite <- app_assoc. reflexivity.
Qed.

(** X20.  When the retry loop of [sanitize_names] does not exit, neither
    does the conversion, and it stops before any artefact: a consenting run
    on such a table never returns and writes no file. *)
Theorem convert_hangs_before_writing (inp prefix mode : string)
  (w w1 : @world cell) (df : Table) (ans : string) (rest : list string) :
  read_data E inp w = (Returned df, w1) ->
  illegal_names (columns df) <> [] ->
  stdin w1 = ans :: rest ->
  lower ans = "y" ->
  sanitize_names (columns df) = None ->
  fst (convert E inp prefix mode w) = Diverged
  /\ disk (snd (convert E inp prefix mode w)) = disk w.
Proof.
  intros Hread Hbad Hin Hans Hsan.
  pose proof (read_data_disk E inp w) as Hdisk. rewrite Hread in Hdisk.
  unfold convert.
  rewrite (convert_consent_run _ _ _ _ _ _ _ _ _ Hread Hbad Hin Hans).
  rewrite Hsan. split; [reflexivity | exact Hdisk].
Qed.

Ltac emission_leaf :=
  cbn [fst snd stdin stdout disk];
  first
    [ exists []; split; [ now rewrite app_nil_r | exists 0; reflexivity ]
    | eexists [_]; split; [ reflexivity | exists 1; reflexivity ]
    | eexists [_; _]; split;
        [ now rewrite <- !app_assoc | exists 2; reflexivity ]
    | eexists [_; _; _]; split;
        [ now rewrite <- !app_assoc | exists 3; reflexivity ] ].

(** The files of an emission are written in the order data file, script,
    mapping file, each only after the ones before it. *)
Lemma convert_emit_files (df : Table) (mp : option dict)
  (prefix mode : string) (w : @world cell) :
  exists files,
    disk (snd (convert_emit E df mp prefix mode w))
    = (disk w ++ files)%list
    /\ exists k, map fst files = firstn k (artefact_paths prefix).
Proof.
  unfold convert_emit, write_dat, write_inp_mod, write_inp_med, write_file,
    bind, print, ret, raise.
  destruct (can_write E (prefix ++ ".dat")); [|emission_leaf].
  cbn [fst snd stdin stdout disk].
  destruct (String.eqb mode "w").
  - destruct (firstn 4 (columns df)) as [|? [|? [|? [|? [|? ?]]]]];
      try emission_leaf.
    destruct (can_write E (prefix ++ ".inp")); [|emission_leaf].
    destruct mp as [[|kv items]|]; try emission_leaf.
    destruct (can_write E (prefix ++ "_variable_map.csv")); emission_leaf.
  - destruct (firstn 3 (columns df)) as [|? [|? [|? [|? ?]]]];
      try emission_leaf.
    destruct (can_write E (prefix ++ ".inp")); [|emission_leaf].
    destruct mp as [[|kv items]|]; try emission_leaf.
    destruct (can_write E (prefix ++ "_variable_map.csv")); emission_leaf.
Qed.

(** Every run is either over before the emission, with the disk as it was,
    or is an emission started on that disk. *)
Lemma convert_with_naming (sanitize : list string -> option dict)
  (inp prefix mode : string) (w : @world cell) :
  disk (snd (convert_with E sanitize inp prefix mode w)) = disk w
  \/ exists df mp w3,
       convert_with E sanitize inp prefix mode w
       = convert_emit E df mp prefix mode w3
       /\ disk w3 = disk w.
Proof.
  pose proof (read_data_disk E inp w) as Hdisk.
  unfold convert_with.
  destruct (read_data E inp w) as [[df|e|] w1] eqn:Hread; simpl in Hdisk;
    try (left; unfold bind; rewrite Hread; exact Hdisk).
  rewrite (bind_returned _ _ _ _ _ Hread).
  destruct (illegal_names (columns df)) as [|b bad] eqn:Hb.
  - right. now exists df, None, w1.
  - erewrite bind_returned by reflexivity.
    erewrite bind_returned by apply for_each_print.
    destruct (stdin w1) as [|ans rest] eqn:Hin.
    + left. unfold bind, input. cbn [stdin stdout disk snd]. exact Hdisk.
    + erewrite bind_returned
        by (unfold input; cbn [stdin stdout disk]; reflexivity).
      destruct (negb (String.eqb (lower ans) "y")); [left; exact Hdisk|].
      destruct (sanitize (columns df)) as [mp|]; [|left; exact Hdisk].
      right. erewrite bind_returned by reflexivity.
      erewrite bind_returned by apply for_each_mapping.
      eexists _, _, _. split; [reflexivity | exact Hdisk].
Qed.

(** X21.  Whatever the input, the answers and the outcome, a conversion
    only adds files to the disk, at most three, and in a fixed order: the
    data file [prefix.dat], then the script [prefix.inp], then the mapping
    file [prefix_variable_map.csv].  A later one is never there without the
    earlier ones, and no other path is written. *)
Theorem convert_files_in_order (inp prefix mode : string) (w : @world cell) :
  exists files,
    disk (snd (convert E inp prefix mode w)) = (disk w ++ files)%list
    /\ exists k, map fst files = firstn k (artefact_paths prefix).
Proof.
  unfold convert.
  destruct (convert_with_naming sanitize_names inp prefix mode w)
    as [H|(df & mp & w3 & -> & Hw3)].
  - exists []. split; [now rewrite app_nil_r | now exists 0].
  - rewrite <- Hw3. apply convert_emit_files.
Qed.

End ConvertFacts.

Lemma rename_uses_generated_names_witness :
  NoDup (columns Sample.survey)
  /\ sanitize_names (columns Sample.survey) = Some Sample.survey_map
  /\ columns (rename Sample.survey Sample.survey_map)
     = ["v1"; "IncomeUS"; "Y"].
Proof.
  assert (Hnd : NoDup (columns Sample.survey)).
  { repeat constructor; simpl; intuition discriminate. }
  split; [exact Hnd|]. split; [reflexivity|].
  exact (proj1 (rename_uses_generated_names Sample.survey Sample.survey_map
                  Hnd eq_refl)).
Defined.

Lemma convert_hangs_before_writing_witness :
  illegal_names (columns SampleMore.stuck) <> []
  /\ lower "y" = "y"
  /\ sanitize_names (columns SampleMore.stuck) = None
  /\ fst (convert (Sample.env_of SampleMore.stuck) "data.xlsx" "out" "m"
            (Sample.start ["y"])) = Diverged
  /\ disk (snd (convert (Sample.env_of SampleMore.stuck) "data.xlsx" "out"
                  "m" (Sample.start ["y"]))) = [].
Proof.
  assert (Hbad : illegal_names (columns SampleMore.stuck) <> []).
  { intros H. discriminate H. }
  split; [exact Hbad|]. split; [reflexivity|]. split; [reflexivity|].
  exact (convert_hangs_before_writing (Sample.env_of SampleMore.stuck)
           "data.xlsx" "out" "m" (Sample.start ["y"]) (Sample.start ["y"])
           SampleMore.stuck "y" [] eq_refl Hbad eq_refl eq_refl eq_refl).
Defined.

Section ConvertRuns.

Context {cell : Type} (E : @environment cell).

Lemma convert_legal_run (inp prefix mode : string) (w w1 : @world cell)
  (df : Table) :
  read_data E inp w = (Returned df, w1) ->
  illegal_names (columns df) = [] ->
  convert E inp prefix mode w = convert_emit E df None prefix mode w1.
Proof.
  intros Hread Hbad. unfold convert, convert_with.
  rewrite (bind_returned _ _ _ _ _ Hread). now rewrite Hbad.
Qed.

(** X22.  End to end, mediation: on a table with legal names and at least
    three columns, in any mode other than [w] and with both paths writable,
    the conversion returns having written exactly two files, the data file
    of the table as ingested and the mediation script over its first three
    columns, and no mapping file; it asks nothing and prints the closing
    message and the two absolute paths. *)
Theorem convert_mediation_run (inp prefix mode : string) (w w1 : @world cell)
  (df : Table) (X M Y : string) (rest : list string) :
  read_data E inp w = (Returned df, w1) ->
  illegal_names (columns df) = [] ->
  columns df = X :: M :: Y :: rest ->
  mode <> "w" ->
  can_write E (prefix ++ ".dat") = true ->
  can_write E (prefix ++ ".inp") = true ->
  convert E inp prefix mode w
  = (Returned tt,
     mkWorld (stdin w1)
       (List.app (stdout w1)
          [nl ++ "转换完成"; abspath E (prefix ++ ".dat");
           abspath E (prefix ++ ".inp")])
       (List.app (disk w1)
          [(prefix ++ ".dat", DatOf df);
           (prefix ++ ".inp",
            Script (med_script X M Y (columns df)
                      (abspath E (prefix ++ ".dat"))))])).
Proof.
  intros Hread Hbad Hcols Hmode Hdat Hinp.
  rewrite (convert_legal_run _ _ _ _ _ _ Hread Hbad).
  apply String.eqb_neq in Hmode.
  unfold convert_emit, write_dat, write_inp_med, write_file, bind, print, ret.
  rewrite Hdat, Hmode. cbn [stdin stdout disk]. rewrite Hcols.
  cbn [firstn]. rewrite Hinp. cbn [stdin stdout disk].
  now rewrite <- !app_assoc.
Qed.

(** X23.  End to end, moderated mediation: in mode [w], on a table with
    legal names and at least four columns and with both paths writable, the
    conversion returns having written exactly the data file and the
    moderated-mediation script over the first four columns. *)
Theorem convert_moderated_run (inp prefix : string) (w w1 : @world cell)
  (df : Table) (X M Y W : string) (rest : list string) :
  read_data E inp w = (Returned df, w1) ->
  illegal_names (columns df) = [] ->
  columns df = X :: M :: Y :: W :: rest ->
  can_write E (prefix ++ ".dat") = true ->
  can_write E (prefix ++ ".inp") = true ->
  convert E inp prefix "w" w
  = (Returned tt,
     mkWorld (stdin w1)
       (List.app (stdout w1)
          [nl ++ "转换完成"; abspath E (prefix ++ ".dat");
           abspath E (prefix ++ ".inp")])
       (List.app (disk w1)
          [(prefix ++ ".dat", DatOf df);
           (prefix ++ ".inp",
            Script (mod_script X M Y W (columns df)
                      (abspath E (prefix ++ ".dat"))))])).
Proof.
  intros Hread Hbad Hcols Hdat Hinp.
  rewrite (convert_legal_run _ _ _ _ _ _ Hread Hbad).
  unfold convert_emit, write_dat, write_inp_mod, write_file, bind, print, ret.
  rewrite Hdat. cbn [String.eqb Ascii.eqb Bool.eqb stdin stdout disk].
  rewrite Hcols. cbn [firstn]. rewrite Hinp. cbn [stdin stdout disk].
  now rewrite <- !app_assoc.
Qed.

(** X24.  The writes are not undone: on a table with legal names but too
    few columns for the mode (three, or four in mode [w]) the conversion
    raises the unpacking [ValueError] after the data file has been
    written, so the data file is left on disk without a script. *)
Theorem convert_too_few_columns (inp prefix mode : string)
  (w w1 : @world cell) (df : Table) :
  read_data E inp w = (Returned df, w1) ->
  illegal_names (columns df) = [] ->
  List.length (columns df) < (if String.eqb mode "w" then 4 else 3) ->
  can_write E (prefix ++ ".dat") = true ->
  convert E inp prefix mode w
  = (Raised (unpack_error (if String.eqb mode "w" then 4 else 3)
               (List.length (columns df))),
     mkWorld (stdin w1) (stdout w1)
       (List.app (disk w1) [(prefix ++ ".dat", DatOf df)])).
Proof.
  intros Hread Hbad Hlen Hdat.
  rewrite (convert_legal_run _ _ _ _ _ _ Hread Hbad).
  unfold convert_emit, write_dat, write_inp_mod, write_inp_med, write_file,
    bind, print, ret, raise.
  rewrite Hdat. cbn [stdin stdout disk].
  destruct (String.eqb mode "w").
  - destruct (columns df) as [|a [|b [|c [|d r]]]]; simpl in Hlen;
      try lia; reflexivity.
  - destruct (columns df) as [|a [|b [|c r]]]; simpl in Hlen;
      try lia; reflexivity.
Qed.

Ltac console_leaf :=
  cbn [fst snd stdin stdout disk];
  first
    [ exists []; now rewrite app_nil_r
    | eexists; rewrite <- ?app_assoc; reflexivity ].

Lemma convert_emit_console (df : Table) (mp : option dict)
  (prefix mode : string) (w : @world cell) :
  exists tail,
    stdout (snd (convert_emit E df mp prefix mode w))
    = (stdout w ++ tail)%list.
Proof.
  unfold convert_emit, write_dat, write_inp_mod, write_inp_med, write_file,
    bind, print, ret, raise.
  destruct (can_write E (prefix ++ ".dat")); [|console_leaf].
  cbn [fst snd stdin stdout disk].
  destruct (String.eqb mode "w").
  - destruct (firstn 4 (columns df)) as [|? [|? [|? [|? [|? ?]]]]];
      try console_leaf.
    destruct (can_write E (prefix ++ ".inp")); [|console_leaf].
    destruct mp as [[|kv items]|]; try console_leaf.
    destruct (can_write E (prefix ++ "_variable_map.csv")); console_leaf.
  - destruct (firstn 3 (columns df)) as [|? [|? [|? [|? ?]]]];
      try console_leaf.
    destruct (can_write E (prefix ++ ".inp")); [|console_leaf].
    destruct mp as [[|kv items]|]; try console_leaf.
    destruct (can_write E (prefix ++ "_variable_map.csv")); console_leaf.
Qed.

(** X25.  What a consenting run shows on the console before it emits
    anything: the heading, one line per illegal identifier in column order,
    the question, the mapping heading, and one line [original → generated]
    for each entry of the mapping whose identifier changed, in order, and
    for no other entry. *)
Theorem convert_console_listing (inp prefix mode : string)
  (w w1 : @world cell) (df : Table) (ans : string) (rest : list string)
  (mp : dict) :
  read_data E inp w = (Returned df, w1) ->
  illegal_names (columns df) <> [] ->
  stdin w1 = ans :: rest ->
  lower ans = "y" ->
  sanitize_names (columns df) = Some mp ->
  exists tail,
    stdout (snd (convert E inp prefix mode w))
    = List.app (stdout w1)
        ((nl ++ "检测到 Mplus 非法变量名：")
         :: List.app (map illegal_line (illegal_names (columns df)))
              (consent_prompt
               :: (nl ++ "变量名映射：")
               :: List.app (map mapping_line (changed_entries mp)) tail)).
Proof.
  intros Hread Hbad Hin Hans Hsan. unfold convert.
  rewrite (convert_consent_run E _ _ _ _ _ _ _ _ _ Hread Hbad Hin Hans).
  rewrite Hsan.
  match goal with
  | |- context [convert_emit E ?d ?m prefix mode ?w0] =>
      destruct (convert_emit_console d m prefix mode w0) as (tail & ->)
  end.
  exists tail. cbn [stdout]. rewrite <- app_assoc. cbn [List.app].
  do 2 f_equal. rewrite <- app_assoc. cbn [List.app]. reflexivity.
Qed.

(** X26.  End to end, after consent: when the renamed table has at least
    three columns, the mode is not [w] and the three paths are writable, the
    run returns having written the data file of the renamed table, the
    mediation script over the first three generated names, and the mapping
    file with the whole mapping, in this order. *)
Theorem convert_consenting_run (inp prefix mode : string)
  (w w1 : @world cell) (df : Table) (ans : string) (rest : list string)
  (mp : dict) (X M Y : string) (others : list string) :
  read_data E inp w = (Returned df, w1) ->
  illegal_names (columns df) <> [] ->
  stdin w1 = ans :: rest ->
  lower ans = "y" ->
  sanitize_names (columns df) = Some mp ->
  columns (rename df mp) = X :: M :: Y :: others ->
  mode <> "w" ->
  can_write E (prefix ++ ".dat") = true ->
  can_write E (prefix ++ ".inp") = true ->
  can_write E (prefix ++ "_variable_map.csv") = true ->
  fst (convert E inp prefix mode w) = Returned tt
  /\ stdin (snd (convert E inp prefix mode w)) = rest
  /\ disk (snd (convert E inp prefix mode w))
     = List.app (disk w)
         [(prefix ++ ".dat", DatOf (rename df mp));
          (prefix ++ ".inp",
           Script (med_script X M Y (columns (rename df mp))
                     (abspath E (prefix ++ ".dat"))));
          (prefix ++ "_variable_map.csv",
           MapCsv ["original"; "mplus"] mp)].
Proof.
  intros Hread Hbad Hin Hans Hsan Hcols Hmode Hdat Hinp Hmap.
  pose proof (read_data_disk E inp w) as Hdisk. rewrite Hread in Hdisk.
  simpl in Hdisk.
  assert (Hne : columns df <> []).
  { intros Hnil. apply Hbad. now rewrite Hnil. }
  pose proof (sanitize_names_nonempty _ _ Hne Hsan) as Hmp.
  destruct mp as [|kv items]; [contradiction|].
  unfold convert.
  rewrite (convert_consent_run E _ _ _ _ _ _ _ _ _ Hread Hbad Hin Hans).
  rewrite Hsan. apply String.eqb_neq in Hmode.
  unfold convert_emit, write_dat, write_inp_med, write_file, bind, print, ret.
  rewrite Hdat, Hmode. cbn [stdin stdout disk]. rewrite Hcols.
  cbn [firstn]. rewrite Hinp. cbn [stdin stdout disk]. rewrite Hmap.
  cbn [fst snd stdin stdout disk]. rewrite Hdisk.
  repeat split. now rewrite <- !app_assoc.
Qed.

End ConvertRuns.

(** ** The further properties on sample runs *)

Lemma m_is_not_w : "m" <> "w".
Proof. intros H. discriminate H. Defined.

Lemma convert_mediation_run_witness :
  illegal_names (columns Sample.xmy) = []
  /\ "m" <> "w"
  /\ disk (snd (convert (Sample.env_of Sample.xmy) "data.xlsx" "out" "m"
                  (Sample.start [])))
     = [("out.dat", DatOf Sample.xmy);
        ("out.inp",
         Script (med_script "X" "M" "Y" ["X"; "M"; "Y"] "/work/out.dat"))].
Proof.
  split; [reflexivity|]. split; [exact m_is_not_w|].
  exact (f_equal (fun r => disk (snd r))
           (convert_mediation_run (Sample.env_of Sample.xmy)
              "data.xlsx" "out" "m" (Sample.start []) (Sample.start [])
              Sample.xmy "X" "M" "Y" [] eq_refl eq_refl eq_refl m_is_not_w
              eq_refl eq_refl)).
Defined.

Lemma convert_moderated_run_witness :
  illegal_names (columns Sample.xmyw) = []
  /\ disk (snd (convert (Sample.env_of Sample.xmyw) "data.xlsx" "out" "w"
                  (Sample.start [])))
     = [("out.dat", DatOf Sample.xmyw);
        ("out.inp",
         Script (mod_script "X" "M" "Y" "W" ["X"; "M"; "Y"; "W"]
                   "/work/out.dat"))].
Proof.
  split; [reflexivity|].
  exact (f_equal (fun r => disk (snd r))
           (convert_moderated_run (Sample.env_of Sample.xmyw)
              "data.xlsx" "out" (Sample.start []) (Sample.start [])
              Sample.xmyw "X" "M" "Y" "W" [] eq_refl eq_refl eq_refl
              eq_refl eq_refl)).
Defined.

Lemma convert_too_few_columns_witness :
  illegal_names (columns SampleMore.two_columns) = []
  /\ List.length (columns SampleMore.two_columns) < 3
  /\ convert (Sample.env_of SampleMore.two_columns) "data.xlsx" "out" "m"
       (Sample.start [])
     = (Raised (ValueError "not enough values to unpack (expected 3, got 2)"),
        mkWorld [] [] [("out.dat", DatOf SampleMore.two_columns)]).
Proof.
  assert (H : List.length (columns SampleMore.two_columns) < 3)
    by (simpl; lia).
  split; [reflexivity|]. split; [exact H|].
  exact (convert_too_few_columns (Sample.env_of SampleMore.two_columns)
           "data.xlsx" "out" "m" (Sample.start []) (Sample.start [])
           SampleMore.two_columns eq_refl eq_refl H eq_refl).
Defined.

Lemma survey_is_illegal : illegal_names (columns Sample.survey) <> [].
Proof. intros H. discriminate H. Defined.

Lemma convert_console_listing_witness :
  illegal_names (columns Sample.survey) = ["1stVar"; "Income(USD)"]
  /\ changed_entries Sample.survey_map
     = [("1stVar", "v1"); ("Income(USD)", "IncomeUS")]
  /\ exists tail,
       stdout (snd (convert (Sample.env_of Sample.survey) "data.xlsx" "out"
                      "m" (Sample.start ["Y"])))
       = List.app
           [nl ++ "检测到 Mplus 非法变量名："; "  - 1stVar";
            "  - Income(USD)"; consent_prompt; nl ++ "变量名映射：";
            "  1stVar → v1"; "  Income(USD) → IncomeUS"] tail.
Proof.
  split; [reflexivity|]. split; [reflexivity|].
  exact (convert_console_listing (Sample.env_of Sample.survey)
           "data.xlsx" "out" "m" (Sample.start ["Y"]) (Sample.start ["Y"])
           Sample.survey "Y" [] Sample.survey_map
           eq_refl survey_is_illegal eq_refl eq_refl eq_refl).
Defined.

Lemma convert_consenting_run_witness :
  illegal_names (columns Sample.survey) <> []
  /\ sanitize_names (columns Sample.survey) = Some Sample.survey_map
  /\ columns (rename Sample.survey Sample.survey_map)
     = ["v1"; "IncomeUS"; "Y"]
  /\ fst (convert (Sample.env_of Sample.survey) "data.xlsx" "out" "m"
            (Sample.start ["y"])) = Returned tt.
Proof.
  split; [exact survey_is_illegal|]. split; [reflexivity|].
  split; [reflexivity|].
  exact (proj1
           (convert_consenting_run (Sample.env_of Sample.survey)
              "data.xlsx" "out" "m" (Sample.start ["y"]) (Sample.start ["y"])
              Sample.survey "y" [] Sample.survey_map "v1" "IncomeUS" "Y" []
              eq_refl survey_is_illegal eq_refl eq_refl eq_refl eq_refl
              m_is_not_w eq_refl eq_refl eq_refl)).
Defined.


(** ** The data file *)

Import DataFile.



































